(** * A shallow embedding of the contact-book assistant [dz1.py]

    The development follows the layout of the source file: the field
    classes ([Field], [Name], [Phone], [Birthday]), the [Record] class, the
    [AddressBook] class with its birthday schedule, and the [ContactApp]
    dispatcher.  The parts of the Python runtime the program relies on
    ([str] methods, [datetime.date], [datetime.strptime]) are modelled in
    the modules [PyStr] and [Datetime].

    Conventions.
    - A Python [str] is a [string]; a character is an [ascii], read as the
      code point of the same number, so the strings covered are those over
      the code points 0..255.
    - A Python [int] is a [Z].
    - A method that mutates [self] and may raise is a computation in the
      monad [M S A = S -> result A * S]: the state reached when the
      exception is raised is kept, as in Python. *)

From Stdlib Require Import ZArith List String Ascii Bool Lia.
Import ListNotations.

Open Scope string_scope.
Open Scope Z_scope.

(** ** Exceptions and the state-and-exception monad *)

(** The exception classes that the program or its library calls raise.
    [OSError] stands for the errors of the operating system other than
    [FileNotFoundError] ([PermissionError], [IsADirectoryError] and the
    like), which no handler of the program catches.  A message into
    which the library writes a datum (the string that did not parse, a
    count, a year) is cut to its fixed part; no handler of the program
    reads a message. *)
Inductive exn : Type :=
| ValueError (msg : string)
| TypeError (msg : string)
| IndexError (msg : string)
| KeyError (msg : string)
| FileNotFoundError (msg : string)
| OverflowError (msg : string)
| OSError (msg : string).

Inductive result (A : Type) : Type :=
| Ok (a : A)
| Raise (e : exn).

Arguments Ok {A} a.
Arguments Raise {A} e.

Definition M (S A : Type) : Type := S -> result A * S.

Definition ret {S A} (a : A) : M S A := fun s => (Ok a, s).

Definition bind {S A B} (c : M S A) (k : A -> M S B) : M S B :=
  fun s =>
    match c s with
    | (Ok a, s') => k a s'
    | (Raise e, s') => (Raise e, s')
    end.

Definition raise {S A} (e : exn) : M S A := fun s => (Raise e, s).

Definition get {S} : M S S := fun s => (Ok s, s).

Definition put {S} (s : S) : M S unit := fun _ => (Ok tt, s).

Definition modify {S} (f : S -> S) : M S unit := fun s => (Ok tt, f s).

(** A pure computation that may raise, run inside [M]. *)
Definition lift {S A} (r : result A) : M S A := fun s => (r, s).

Declare Scope py_scope.
Delimit Scope py_scope with py.
Notation "x <- c ;; k" := (bind c (fun x => k))
  (at level 61, c at next level, right associativity) : py_scope.
Notation "c ;; k" := (bind c (fun _ => k))
  (at level 61, right associativity) : py_scope.
Open Scope py_scope.

(** ** The [str] methods used by the program *)

Module PyStr.

Definition ord (c : ascii) : Z := Z.of_N (N_of_ascii c).

Definition len (s : string) : Z := Z.of_nat (String.length s).

(** Truth value of a [str]: true unless empty. *)
Definition truthy (s : string) : bool :=
  match s with
  | EmptyString => false
  | String _ _ => true
  end.

(** [c.isdigit()] for one character: the characters of numeric type
    Decimal or Digit.  Below code point 256 these are [0]..[9] and the
    superscripts two (178), three (179) and one (185). *)
Definition isdigit_char (c : ascii) : bool :=
  let n := ord c in
  ((48 <=? n) && (n <=? 57)) || (n =? 178) || (n =? 179) || (n =? 185).

Fixpoint all_chars (p : ascii -> bool) (s : string) : bool :=
  match s with
  | EmptyString => true
  | String c r => p c && all_chars p r
  end.

(** [s.isdigit()]: every character is a digit and there is at least
    one character. *)
Definition isdigit (s : string) : bool :=
  truthy s && all_chars isdigit_char s.

(** The characters [str.split()] and [str.strip()] treat as white
    space, below code point 256. *)
Definition isspace_char (c : ascii) : bool :=
  let n := ord c in
  ((9 <=? n) && (n <=? 13)) || ((28 <=? n) && (n <=? 32))
  || (n =? 133) || (n =? 160).

(** [c.lower()]: the upper-case letters below code point 256 are
    [A]..[Z] and 192..222 without the multiplication sign 215; each has
    its lower-case form 32 places further. *)
Definition lower_char (c : ascii) : ascii :=
  let n := ord c in
  if ((65 <=? n) && (n <=? 90))
     || ((192 <=? n) && (n <=? 222) && negb (n =? 215))
  then ascii_of_N (Z.to_N (n + 32))
  else c.

Fixpoint lower (s : string) : string :=
  match s with
  | EmptyString => EmptyString
  | String c r => String (lower_char c) (lower r)
  end.

Fixpoint lstrip (s : string) : string :=
  match s with
  | EmptyString => EmptyString
  | String c r => if isspace_char c then lstrip r else s
  end.

(** Removal of trailing white space: a character is dropped when it is
    white space and nothing is kept after it. *)
Fixpoint rstrip (s : string) : string :=
  match s with
  | EmptyString => EmptyString
  | String c r =>
      match rstrip r with
      | EmptyString => if isspace_char c then EmptyString else String c EmptyString
      | r' => String c r'
      end
  end.

Definition strip (s : string) : string := rstrip (lstrip s).

(** [s.split(' ', 1)]: cut at the first space character (code point 32
    only); a list of one or two strings. *)
Fixpoint split_space_once (s : string) : string * option string :=
  match s with
  | EmptyString => (EmptyString, None)
  | String c r =>
      if Ascii.eqb c " " then (EmptyString, Some r)
      else let (h, t) := split_space_once r in (String c h, t)
  end.

(** [s.split()]: the maximal runs of characters that are not white
    space, in order.  [cur] is the run being read. *)
Fixpoint split_aux (cur : string) (s : string) : list string :=
  match s with
  | EmptyString => if truthy cur then [cur] else []
  | String c r =>
      if isspace_char c
      then (if truthy cur then cur :: split_aux EmptyString r
            else split_aux EmptyString r)
      else split_aux (cur ++ String c EmptyString) r
  end.

Definition split (s : string) : list string := split_aux EmptyString s.

End PyStr.

(** ** The [datetime] module: dates of the proleptic Gregorian calendar *)

Module Datetime.

Definition MINYEAR : Z := 1.
Definition MAXYEAR : Z := 9999.

(** [date.max.toordinal()], the ordinal of 31 December 9999. *)
Definition _MAXORDINAL : Z := 3652059.

Definition _DAYS_IN_MONTH : list Z :=
  [-1; 31; 28; 31; 30; 31; 30; 31; 31; 30; 31; 30; 31].

Definition _DAYS_BEFORE_MONTH : list Z :=
  [-1; 0; 31; 59; 90; 120; 151; 181; 212; 243; 273; 304; 334].

Definition index (table : list Z) (i : Z) : Z := nth (Z.to_nat i) table (-1).

Definition _is_leap (year : Z) : bool :=
  (year mod 4 =? 0) && (negb (year mod 100 =? 0) || (year mod 400 =? 0)).

Definition _days_before_year (year : Z) : Z :=
  let y := year - 1 in
  y * 365 + y / 4 - y / 100 + y / 400.

Definition _days_in_month (year month : Z) : Z :=
  if (month =? 2) && _is_leap year then 29
  else index _DAYS_IN_MONTH month.

Definition _days_before_month (year month : Z) : Z :=
  index _DAYS_BEFORE_MONTH month
  + (if (2 <? month) && _is_leap year then 1 else 0).

Definition _ymd2ord (year month day : Z) : Z :=
  _days_before_year year + _days_before_month year month + day.

Definition _DI400Y : Z := 146097.
Definition _DI100Y : Z := 36524.
Definition _DI4Y : Z := 1461.

(** The end of [_ord2ymd]: month and day of the day number [n],
    counted from 0, of a year.  The month is estimated, and the estimate
    is lowered by one when it is too large. *)
Definition _ord2md (leapyear : bool) (n : Z) : Z * Z :=
  let month := Z.shiftr (n + 50) 5 in
  let preceding :=
    index _DAYS_BEFORE_MONTH month
    + (if (2 <? month) && leapyear then 1 else 0) in
  if n <? preceding then
    let month := month - 1 in
    let preceding :=
      preceding
      - (index _DAYS_IN_MONTH month
         + (if (month =? 2) && leapyear then 1 else 0)) in
    (month, n - preceding + 1)
  else (month, n - preceding + 1).

(** The inverse of [_ymd2ord], as the library computes it: the ordinal
    is cut into 400-year, 100-year, 4-year and 1-year cycles, which give
    the year; the rest is the day number within the year. *)
Definition _ord2ymd (ordinal : Z) : Z * Z * Z :=
  let n := ordinal - 1 in
  let n400 := n / _DI400Y in
  let n := n mod _DI400Y in
  let year := n400 * 400 + 1 in
  let n100 := n / _DI100Y in
  let n := n mod _DI100Y in
  let n4 := n / _DI4Y in
  let n := n mod _DI4Y in
  let n1 := n / 365 in
  let n := n mod 365 in
  let year := year + (n100 * 100 + n4 * 4 + n1) in
  if (n1 =? 4) || (n100 =? 4) then (year - 1, 12, 31)
  else
    let leapyear := (n1 =? 3) && (negb (n4 =? 24) || (n100 =? 3)) in
    let (month, day) := _ord2md leapyear n in
    (year, month, day).

Record date : Type := mkdate { year : Z; month : Z; day : Z }.

(** The field check made by every constructor of [date]. *)
Definition fields_ok (y m d : Z) : bool :=
  (MINYEAR <=? y) && (y <=? MAXYEAR)
  && (1 <=? m) && (m <=? 12)
  && (1 <=? d) && (d <=? _days_in_month y m).

(** [date(y, m, d)]. *)
Definition date_new (y m d : Z) : result date :=
  if negb ((MINYEAR <=? y) && (y <=? MAXYEAR))
  then Raise (ValueError "year is out of range")
  else if negb ((1 <=? m) && (m <=? 12))
  then Raise (ValueError "month must be in 1..12")
  else if negb ((1 <=? d) && (d <=? _days_in_month y m))
  then Raise (ValueError "day is out of range for month")
  else Ok (mkdate y m d).

(** [d.replace(year=y)]. *)
Definition replace_year (d : date) (y : Z) : result date :=
  date_new y (month d) (day d).

Definition toordinal (d : date) : Z := _ymd2ord (year d) (month d) (day d).

Definition of_ymd (t : Z * Z * Z) : date :=
  let '(y, m, d) := t in mkdate y m d.

(** [d.weekday()]: Monday is 0, Sunday is 6. *)
Definition weekday (d : date) : Z := (toordinal d + 6) mod 7.

(** [d + timedelta(days=n)]. *)
Definition add_days (d : date) (n : Z) : result date :=
  let o := toordinal d + n in
  if (0 <? o) && (o <=? _MAXORDINAL) then Ok (of_ymd (_ord2ymd o))
  else Raise (OverflowError "date value out of range").

(** [(a - b).days]. *)
Definition sub_days (a b : date) : Z := toordinal a - toordinal b.

(** The character of the last decimal digit of [n]. *)
Definition digit_char (n : Z) : ascii := ascii_of_N (Z.to_N (48 + n mod 10)).

(** [str(d)], the ISO form [YYYY-MM-DD] with leading zeros. *)
Definition isoformat (d : date) : string :=
  let c (n : Z) (r : string) := String (digit_char n) r in
  c (year d / 1000) (c (year d / 100) (c (year d / 10) (c (year d)
    (String "-" (c (month d / 10) (c (month d)
      (String "-" (c (day d / 10) (c (day d) EmptyString))))))))).

(** [a < b]: the comparison of the triples (year, month, day). *)
Definition date_ltb (a b : date) : bool :=
  (year a <? year b)
  || ((year a =? year b)
      && ((month a <? month b)
          || ((month a =? month b) && (day a <? day b)))).

(** *** [datetime.strptime(s, "%d.%m.%Y")]

    The library turns the format into the regular expression
    [(3[0-1]|[1-2]\d|0[1-9]|[1-9]| [1-9])\.(1[0-2]|0[1-9]|[1-9])\.(\d\d\d\d)],
    matches it at the start of the string, refuses a match that does not
    reach the end, and builds the date from the three groups. *)

(** The value of a decimal digit, as [\d] matches it and [int] reads
    it.  Among the code points 0..255, the characters of this
    development, the decimal digits are the characters "0" to "9".
    Beyond them the library takes the decimal digits of other scripts as
    well, wherever the expression has [\d] and not a class such as
    [[0-9]]: what is stated below about the strings that [strptime] reads
    or refuses is stated of strings over the code points 0..255. *)
Definition digit_val (c : ascii) : option Z :=
  let n := PyStr.ord c in
  if (48 <=? n) && (n <=? 57) then Some (n - 48) else None.

(** One alternative of a group: the value read and the rest of the
    string, when the alternative matches at the start of the string. *)
Definition alternative : Type := string -> option (Z * string).

(** Two characters [a b] with [a] and [b] digits satisfying [p]. *)
Definition two_digits (p : Z -> Z -> bool) : alternative :=
  fun s =>
    match s with
    | String a (String b r) =>
        match digit_val a, digit_val b with
        | Some x, Some y => if p x y then Some (10 * x + y, r) else None
        | _, _ => None
        end
    | _ => None
    end.

(** One character [1-9]. *)
Definition one_digit : alternative :=
  fun s =>
    match s with
    | String a r =>
        match digit_val a with
        | Some x => if 1 <=? x then Some (x, r) else None
        | None => None
        end
    | _ => None
    end.

(** A space and one character [1-9]. *)
Definition space_digit : alternative :=
  fun s =>
    match s with
    | String a r => if Ascii.eqb a " " then one_digit r else None
    | _ => None
    end.

(** The group of [%d]: [3[0-1]|[1-2]\d|0[1-9]|[1-9]| [1-9]]. *)
Definition d_group : list alternative :=
  [ two_digits (fun x y => (x =? 3) && (y <=? 1));
    two_digits (fun x _ => (1 <=? x) && (x <=? 2));
    two_digits (fun x y => (x =? 0) && (1 <=? y));
    one_digit;
    space_digit ].

(** The group of [%m]: [1[0-2]|0[1-9]|[1-9]]. *)
Definition m_group : list alternative :=
  [ two_digits (fun x y => (x =? 1) && (y <=? 2));
    two_digits (fun x y => (x =? 0) && (1 <=? y));
    one_digit ].

(** The group of [%Y]: [\d\d\d\d]. *)
Definition Y_group (s : string) : option (Z * string) :=
  match s with
  | String a (String b (String c (String e r))) =>
      match digit_val a, digit_val b, digit_val c, digit_val e with
      | Some x, Some y, Some z, Some w =>
          Some (1000 * x + 100 * y + 10 * z + w, r)
      | _, _, _, _ => None
      end
  | _ => None
  end.

(** The literal [\.] of the expression. *)
Definition dot (s : string) : option string :=
  match s with
  | String a r => if Ascii.eqb a "." then Some r else None
  | _ => None
  end.

(** Matching a group and then the rest of the expression [k]: the
    alternatives are tried from left to right, and a later one is tried
    when the rest fails after an earlier one (backtracking). *)
Fixpoint alt_then {R} (g : list alternative) (s : string)
         (k : Z -> string -> option R) : option R :=
  match g with
  | [] => None
  | a :: g' =>
      match a s with
      | Some (v, r) =>
          match k v r with
          | Some x => Some x
          | None => alt_then g' s k
          end
      | None => alt_then g' s k
      end
  end.

(** [format_regex.match(s)]: the three groups and what is left of the
    string after the match. *)
Definition regex_match (s : string) : option (Z * Z * Z * string) :=
  alt_then d_group s (fun d r1 =>
    match dot r1 with
    | Some r2 =>
        alt_then m_group r2 (fun m r3 =>
          match dot r3 with
          | Some r4 =>
              match Y_group r4 with
              | Some (y, r5) => Some (d, m, y, r5)
              | None => None
              end
          | None => None
          end)
    | None => None
    end).

(** The result is a [datetime] at midnight; the program takes its
    [date()] at once, and the time of day is left out here. *)
Definition strptime (s : string) : result date :=
  match regex_match s with
  | None => Raise (ValueError "time data does not match format")
  | Some (d, m, y, rest) =>
      if PyStr.truthy rest then Raise (ValueError "unconverted data remains")
      else date_new y m d
  end.

(** *** [datetime.strptime(s, "%Y.%m.%d")] and [d.strftime("%Y.%m.%d")]

    The regular expression of this format is
    [(\d\d\d\d)\.(1[0-2]|0[1-9]|[1-9])\.(3[0-1]|[1-2]\d|0[1-9]|[1-9]| [1-9])]:
    the same groups in the other order.  Nothing follows the group of the
    day, so its first alternative that matches is taken. *)
Definition regex_match_Ymd (s : string) : option (Z * Z * Z * string) :=
  match Y_group s with
  | Some (y, r1) =>
      match dot r1 with
      | Some r2 =>
          alt_then m_group r2 (fun m r3 =>
            match dot r3 with
            | Some r4 => alt_then d_group r4 (fun d r5 => Some (y, m, d, r5))
            | None => None
            end)
      | None => None
      end
  | None => None
  end.

Definition strptime_Ymd (s : string) : result date :=
  match regex_match_Ymd s with
  | None => Raise (ValueError "time data does not match format")
  | Some (y, m, d, rest) =>
      if PyStr.truthy rest then Raise (ValueError "unconverted data remains")
      else date_new y m d
  end.

(** The year as [%Y] writes it where the C library is glibc: in decimal,
    without leading zeros. *)
Definition year_digits (y : Z) : string :=
  let c (n : Z) (r : string) := String (digit_char n) r in
  if y <? 10 then c y EmptyString
  else if y <? 100 then c (y / 10) (c y EmptyString)
  else if y <? 1000 then c (y / 100) (c (y / 10) (c y EmptyString))
  else c (y / 1000) (c (y / 100) (c (y / 10) (c y EmptyString))).

(** [%m] and [%d] write two digits. *)
Definition two_digits_of (n : Z) : string :=
  String (digit_char (n / 10)) (String (digit_char n) EmptyString).

Definition strftime_Ymd (d : date) : string :=
  year_digits (year d) ++ "." ++ two_digits_of (month d) ++ "."
    ++ two_digits_of (day d).

End Datetime.

(** Sequencing of pure computations that may raise. *)
Definition and_then {A B} (r : result A) (k : A -> result B) : result B :=
  match r with
  | Ok a => k a
  | Raise e => Raise e
  end.

(** Calling a [str] object [f] with one argument, as in
    [new_phone(Phone)]: a [str] is not callable, whatever the argument. *)
Definition call_str {A} (f : string) (arg : A) : result string :=
  Raise (TypeError "'str' object is not callable").

(** ** The field classes *)

Module Field.
Record t : Type := mk { value : string }.
End Field.

Module Name.
Definition t : Type := Field.t.
Definition new (value : string) : t := Field.mk value.
End Name.

Module Phone.
Definition t : Type := Field.t.

Definition validate_phone (phone : string) : bool :=
  (PyStr.len phone =? 10) && PyStr.isdigit phone.

Definition new (value : string) : result t :=
  if negb (validate_phone value)
  then Raise (ValueError "Invalid phone number")
  else Ok (Field.mk value).
End Phone.

Module Birthday.
Definition t : Type := Field.t.

Definition new (value : string) : result t :=
  match Datetime.strptime value with
  | Ok _ => Ok (Field.mk value)
  | Raise (ValueError _) => Raise (ValueError "Invalid date format")
  | Raise e => Raise e
  end.
End Birthday.

(** ** The class [Record] *)

Module Record.

Record t : Type := mk {
  name : Name.t;
  phones : list Phone.t;
  birthday : option Birthday.t
}.

Definition set_phones (ps : list Phone.t) (self : t) : t :=
  mk (name self) ps (birthday self).

Definition set_birthday (b : option Birthday.t) (self : t) : t :=
  mk (name self) (phones self) b.

(** [Record(name, phone, birthday)]; [birthday] is [None] when the
    argument is left out. *)
Definition new (name phone : string) (birthday : option string) : result t :=
  let n := Name.new name in
  and_then (Phone.new phone) (fun p =>
  and_then
    (match birthday with
     | Some b =>
         if PyStr.truthy b
         then and_then (Birthday.new b) (fun x => Ok (Some x))
         else Ok None
     | None => Ok None
     end)
    (fun b => Ok (mk n [p] b))).

Definition add_phone (phone : string) : M t Phone.t :=
  if Phone.validate_phone phone then
    new_phone <- lift (Phone.new phone) ;;
    modify (fun self => set_phones (phones self ++ [new_phone]) self) ;;
    ret new_phone
  else raise (ValueError "Invalid phone number").

(** The loop of [find_phone] over [self.phones].  The [Phone] object it
    returns is denoted by its position in the list. *)
Fixpoint find_in (phone : string) (ps : list Phone.t) : option nat :=
  match ps with
  | [] => None
  | p :: rest =>
      if String.eqb (Field.value p) phone then Some O
      else option_map S (find_in phone rest)
  end.

Definition find_phone (phone : string) : M t (option nat) :=
  self <- get ;;
  ret (find_in phone (phones self)).

(** [self.phones.remove(p)] for the object [p] at position [i]: a
    [Phone] is equal only to itself, and no object occurs twice in the
    list, so the element dropped is the one at position [i]. *)
Fixpoint remove_at {A} (i : nat) (l : list A) : list A :=
  match l, i with
  | [], _ => []
  | _ :: rest, O => rest
  | x :: rest, S j => x :: remove_at j rest
  end.

Definition remove_phone (phone : string) : M t (option Phone.t) :=
  del_phone <- find_phone phone ;;
  match del_phone with
  | Some i =>
      self <- get ;;
      put (set_phones (remove_at i (phones self)) self) ;;
      ret (nth_error (phones self) i)
  | None => ret None
  end.

(** The assignment [p.value = v] for the object [p] at position [i]. *)
Fixpoint set_value_at (i : nat) (v : string) (ps : list Phone.t) : list Phone.t :=
  match ps, i with
  | [], _ => []
  | _ :: rest, O => Field.mk v :: rest
  | p :: rest, S j => p :: set_value_at j v rest
  end.

Definition edit_phone (old_phone new_phone : string) : M t unit :=
  if negb (PyStr.len new_phone =? 10)
  then raise (ValueError "Invalid phone number: must be 10 digits.")
  else
    phone <- find_phone old_phone ;;
    match phone with
    | Some i =>
        v <- lift (call_str new_phone Phone.new) ;;
        modify (fun self => set_phones (set_value_at i v (phones self)) self)
    | None => raise (ValueError "Phone number not found")
    end.

Definition edit_birthday (new_birthday : string) : M t unit :=
  b <- lift (Birthday.new new_birthday) ;;
  modify (set_birthday (Some b)).

(** [str(record)]. *)
Definition to_str (self : t) : string :=
  let phones := String.concat "; " (map Field.value (phones self)) in
  let birthday_str :=
    match birthday self with
    | Some b => Field.value b
    | None => "No birthday set"
    end in
  "Contact name: " ++ Field.value (name self) ++ ", phones: " ++ phones
    ++ ", birthday: " ++ birthday_str.

End Record.

(** ** The class [AddressBook] *)

Module AddressBook.

(** The dictionary [self.data]: the keys in insertion order, each with
    its record; no key occurs twice. *)
Definition t : Type := list (string * Record.t).

(** [self.data[key] = record]: an existing key keeps its place, a new
    key goes to the end. *)
Fixpoint setitem (key : string) (record : Record.t) (data : t) : t :=
  match data with
  | [] => [(key, record)]
  | (k, r) :: rest =>
      if String.eqb k key then (k, record) :: rest
      else (k, r) :: setitem key record rest
  end.

Definition add_record (record : Record.t) (data : t) : t :=
  setitem (Field.value (Record.name record)) record data.

(** [self.data.get(name)]. *)
Fixpoint find (name : string) (data : t) : option Record.t :=
  match data with
  | [] => None
  | (k, r) :: rest => if String.eqb k name then Some r else find name rest
  end.

Fixpoint delete (name : string) (data : t) : t :=
  match data with
  | [] => []
  | (k, r) :: rest =>
      if String.eqb k name then rest else (k, r) :: delete name rest
  end.

(** [self.data.values()]. *)
Definition values (data : t) : list Record.t := map snd data.

Definition nl : string := String "010"%char EmptyString.

(** [str(book)]. *)
Definition to_str (data : t) : string :=
  match data with
  | [] => "No contacts found."
  | _ => String.concat nl (map Record.to_str (values data))
  end.

Definition find_next_weekday (start_date : Datetime.date) (weekday : Z)
  : result Datetime.date :=
  let days_ahead := weekday - Datetime.weekday start_date in
  let days_ahead := if days_ahead <=? 0 then days_ahead + 7 else days_ahead in
  Datetime.add_days start_date days_ahead.

Definition adjust_for_weekend (birthday : Datetime.date) : result Datetime.date :=
  if 4 <=? Datetime.weekday birthday
  then find_next_weekday birthday 0
  else Ok birthday.

(** One element of the list returned by [get_upcoming_birthdays]: the
    dictionary with the keys ["name"] and ["birthday"]. *)
Record upcoming : Type := mk_upcoming {
  u_name : string;
  u_birthday : Datetime.date
}.

(** The date the loop body computes for one stored birthday string. *)
Definition adjusted_birthday (value : string) (today : Datetime.date)
  : result Datetime.date :=
  and_then (Datetime.strptime value) (fun parsed =>
  and_then (Datetime.replace_year parsed (Datetime.year today)) (fun birth_date =>
  and_then
    (if Datetime.date_ltb birth_date today
     then Datetime.replace_year birth_date (Datetime.year today + 1)
     else Ok birth_date)
    (fun birth_date => adjust_for_weekend birth_date))).

(** The [for] loop of [get_upcoming_birthdays]; [acc] is the list
    [upcoming_birthdays] built so far. *)
Fixpoint upcoming_loop (records : list Record.t) (days : Z)
         (today : Datetime.date) (acc : list upcoming)
  : result (list upcoming) :=
  match records with
  | [] => Ok acc
  | record :: rest =>
      match Record.birthday record with
      | Some b =>
          and_then (adjusted_birthday (Field.value b) today) (fun adjusted =>
            let delta := Datetime.sub_days adjusted today in
            if (0 <=? delta) && (delta <=? days)
            then upcoming_loop rest days today
                   (acc ++ [mk_upcoming (Field.value (Record.name record)) adjusted])
            else upcoming_loop rest days today acc)
      | None => upcoming_loop rest days today acc
      end
  end.

(** [get_upcoming_birthdays(days)], with the value of
    [datetime.now().date()] as the argument [today]. *)
Definition get_upcoming_birthdays (data : t) (days : Z) (today : Datetime.date)
  : result (list upcoming) :=
  upcoming_loop (values data) days today [].

Definition string_to_date (date_string : string) : result Datetime.date :=
  Datetime.strptime_Ymd date_string.

Definition date_to_string (date : Datetime.date) : string :=
  Datetime.strftime_Ymd date.

(** The [for] loop of [prepare_user_list]; [acc] is [prepared_list]. *)
Fixpoint prepare_loop (records : list Record.t) (acc : list upcoming)
  : result (list upcoming) :=
  match records with
  | [] => Ok acc
  | record :: rest =>
      match Record.birthday record with
      | Some b =>
          and_then (string_to_date (Field.value b)) (fun date =>
            prepare_loop rest
              (acc ++ [mk_upcoming (Field.value (Record.name record)) date]))
      | None => prepare_loop rest acc
      end
  end.

Definition prepare_user_list (data : t) : result (list upcoming) :=
  prepare_loop (values data) [].

End AddressBook.

(** ** The decorator [input_error] and a function it wraps *)

(** What a function wrapped by [input_error] returns: the value of the
    function, one of the three messages, or a fresh [AddressBook()]. *)
Inductive wrapped (A : Type) : Type :=
| Returned (a : A)
| Message (msg : string)
| FreshBook (book : AddressBook.t).

Arguments Returned {A} a.
Arguments Message {A} msg.
Arguments FreshBook {A} book.

Definition input_error {S A} (func : M S A) : M S (wrapped A) :=
  fun s =>
    match func s with
    | (Ok a, s') => (Ok (Returned a), s')
    | (Raise (ValueError _), s') =>
        (Ok (Message "Give me name and phone please."), s')
    | (Raise (IndexError _), s') =>
        (Ok (Message "Please provide a name to lookup the phone number."), s')
    | (Raise (KeyError _), s') => (Ok (Message "Name not found"), s')
    | (Raise (FileNotFoundError _), s') => (Ok (FreshBook []), s')
    | (Raise e, s') => (Raise e, s')
    end.

(** [name, phone = args]. *)
Definition unpack2 (args : list string) : result (string * string) :=
  match args with
  | [a; b] => Ok (a, b)
  | [] | [_] => Raise (ValueError "not enough values to unpack (expected 2)")
  | _ => Raise (ValueError "too many values to unpack (expected 2)")
  end.

(** [l[0]]. *)
Definition item0 {A} (l : list A) : result A :=
  match l with
  | x :: _ => Ok x
  | [] => Raise (IndexError "list index out of range")
  end.

(** A method call on the record object [record] that the book holds under
    [key]: the object is changed in place, so the book holds the changed
    record afterwards. *)
Definition on_record {A} (key : string) (record : Record.t) (c : M Record.t A)
  : M AddressBook.t A :=
  fun data =>
    let (r, record') := c record in
    (r, AddressBook.setitem key record' data).

(** The function [add_contact(args, book)] of the module, with its
    decorator. *)
Definition add_contact (args : list string) : M AddressBook.t (wrapped string) :=
  input_error (
    p <- lift (unpack2 args) ;;
    let (name, phone) := p : string * string in
    book <- get ;;
    match AddressBook.find name book with
    | Some record =>
        on_record name record (Record.add_phone phone) ;;
        ret "Phone added."
    | None =>
        if PyStr.len phone =? 10 then
          r <- lift (Record.new name phone None) ;;
          modify (AddressBook.add_record r) ;;
          ret "Contact added."
        else raise (ValueError "")
    end).

(** The other functions of the module that carry the decorator.  Each
    takes the book as an argument and changes it in place. *)
Definition add_birthday (args : list string) : M AddressBook.t (wrapped string) :=
  input_error (
    p <- lift (unpack2 args) ;;
    let (name, birthday) := p : string * string in
    book <- get ;;
    match AddressBook.find name book with
    | Some record =>
        on_record name record (Record.edit_birthday birthday) ;;
        ret ("Birthday for " ++ name ++ " added.")
    | None => ret ("Contact " ++ name ++ " not found.")
    end).

Definition show_birthday (name : string) : M AddressBook.t (wrapped string) :=
  input_error (
    book <- get ;;
    match AddressBook.find name book with
    | Some record =>
        match Record.birthday record with
        | Some b => ret ("Birthday for " ++ name ++ ": " ++ Field.value b)
        | None => ret ("Birthday for " ++ name ++ " not added.")
        end
    | None => ret ("Contact " ++ name ++ " not found.")
    end).

(** [today] is the value of [datetime.now().date()] at the call. *)
Definition birthdays (today : Datetime.date) : M AddressBook.t (wrapped string) :=
  input_error (
    book <- get ;;
    upcoming_birthdays <-
      lift (AddressBook.get_upcoming_birthdays book 7 today) ;;
    match upcoming_birthdays with
    | _ :: _ =>
        ret (String.concat AddressBook.nl
               (map (fun user =>
                       "Greeting for " ++ AddressBook.u_name user ++ " for "
                       ++ Datetime.isoformat (AddressBook.u_birthday user))
                    upcoming_birthdays))
    | [] => ret "Users not found."
    end).

Definition parse_input (user_input : string)
  : M unit (wrapped (string * list string)) :=
  input_error (
    let (cmd, rest) := PyStr.split_space_once user_input in
    let args :=
      match rest with
      | Some a => PyStr.split a
      | None => []
      end in
    ret (PyStr.lower (PyStr.strip cmd), args)).

Definition change_contact (args : list string) : M AddressBook.t (wrapped string) :=
  input_error (
    p <- lift (unpack2 args) ;;
    let (name, phone) := p : string * string in
    book <- get ;;
    match AddressBook.find name book with
    | Some record =>
        first <- lift (item0 (Record.phones record)) ;;
        on_record name record (Record.edit_phone (Field.value first) phone) ;;
        ret "Contact updated."
    | None => ret "Contact not found."
    end).

Definition show_phone (name : string) : M AddressBook.t (wrapped string) :=
  input_error (
    book <- get ;;
    match AddressBook.find name book with
    | Some record =>
        first <- lift (item0 (Record.phones record)) ;;
        ret ("Phone number for " ++ name ++ ": " ++ Field.value first)
    | None => ret ("Contact " ++ name ++ " not found.")
    end).

(** [save_data(book)] opens the file for writing and pickles the book
    into it.  The file system is outside the model: [written] is what
    [open] and [pickle.dump] do at the call, they return or they raise.
    The book itself is left as it is, and on success the value is
    [None]. *)
Definition save_data (written : result unit)
  : M AddressBook.t (wrapped unit) :=
  input_error (lift written).

(** ** The class [ContactApp] *)

Module ContactApp.

(** The state of the application: the book, and the lines the console
    view has printed so far. *)
Record t : Type := mk {
  book : AddressBook.t;
  printed : list string
}.

(** [self.view.show_message(message)]. *)
Definition show_message (message : string) : M t unit :=
  modify (fun self => mk (book self) (printed self ++ [message])).

(** [self.view.show_contacts(contacts)] for a [str] and for a list. *)
Definition show_contacts_str (contacts : string) : M t unit :=
  modify (fun self => mk (book self) (printed self ++ [contacts])).

Definition show_contacts_list (contacts : list string) : M t unit :=
  modify (fun self => mk (book self) (printed self ++ contacts)).

(** A computation on [self.book]. *)
Definition on_book {A} (c : M AddressBook.t A) : M t A :=
  fun self =>
    let (r, b) := c (book self) in
    (r, mk b (printed self)).

Definition find (name : string) : M t (option Record.t) :=
  self <- get ;;
  ret (AddressBook.find name (book self)).

(** The value a handler returns: [None], or the string ["exit"]. *)
Definition handler : Type := list string -> M t (option string).

Definition hello : handler := fun args =>
  show_message "How can I help you?" ;;
  ret None.

Definition add_contact : handler := fun args =>
  p <- lift (unpack2 args) ;;
  let (name, phone) := p : string * string in
  record <- find name ;;
  match record with
  | Some record =>
      on_book (on_record name record (Record.add_phone phone)) ;;
      show_message "Phone added." ;;
      ret None
  | None =>
      if PyStr.len phone =? 10 then
        r <- lift (Record.new name phone None) ;;
        on_book (modify (AddressBook.add_record r)) ;;
        show_message "Contact added." ;;
        ret None
      else
        show_message "Invalid phone number" ;;
        ret None
  end.

Definition change_contact : handler := fun args =>
  p <- lift (unpack2 args) ;;
  let (name, phone) := p : string * string in
  record <- find name ;;
  match record with
  | Some record =>
      first <- lift (item0 (Record.phones record)) ;;
      on_book (on_record name record
                 (Record.edit_phone (Field.value first) phone)) ;;
      show_message "Contact updated." ;;
      ret None
  | None =>
      show_message "Contact not found." ;;
      ret None
  end.

Definition show_phone : handler := fun args =>
  name <- lift (item0 args) ;;
  record <- find name ;;
  match record with
  | Some record =>
      first <- lift (item0 (Record.phones record)) ;;
      show_message ("Phone number for " ++ name ++ ": " ++ Field.value first) ;;
      ret None
  | None =>
      show_message ("Contact " ++ name ++ " not found.") ;;
      ret None
  end.

Definition show_all_contacts : handler := fun args =>
  self <- get ;;
  show_contacts_str (AddressBook.to_str (book self)) ;;
  ret None.

Definition add_birthday : handler := fun args =>
  p <- lift (unpack2 args) ;;
  let (name, birthday) := p : string * string in
  record <- find name ;;
  match record with
  | Some record =>
      on_book (on_record name record (Record.edit_birthday birthday)) ;;
      show_message ("Birthday for " ++ name ++ " added.") ;;
      ret None
  | None =>
      show_message ("Contact " ++ name ++ " not found.") ;;
      ret None
  end.

Definition show_birthday : handler := fun args =>
  name <- lift (item0 args) ;;
  record <- find name ;;
  match record with
  | Some record =>
      match Record.birthday record with
      | Some b =>
          show_message ("Birthday for " ++ name ++ ": " ++ Field.value b) ;;
          ret None
      | None =>
          show_message ("Birthday for " ++ name ++ " not added.") ;;
          ret None
      end
  | None =>
      show_message ("Contact " ++ name ++ " not found.") ;;
      ret None
  end.

(** [today] is the value of [datetime.now().date()] at the call. *)
Definition show_birthdays (today : Datetime.date) : handler := fun args =>
  self <- get ;;
  upcoming_birthdays <-
    lift (AddressBook.get_upcoming_birthdays (book self) 7 today) ;;
  match upcoming_birthdays with
  | _ :: _ =>
      show_contacts_list
        (map (fun user =>
                "Greeting for " ++ AddressBook.u_name user ++ " for "
                ++ Datetime.isoformat (AddressBook.u_birthday user))
             upcoming_birthdays) ;;
      ret None
  | [] =>
      show_message "Users not found." ;;
      ret None
  end.

(** [written] is what writing the file does at the call, see
    [save_data]; the value [save_data] returns is dropped. *)
Definition exit (written : result unit) : handler := fun args =>
  on_book (save_data written) ;;
  show_message "Good bye!" ;;
  ret (Some "exit").

(** The dictionary [self.commands]. *)
Definition commands (today : Datetime.date) (written : result unit)
  : list (string * handler) :=
  [ ("hello", hello);
    ("add", add_contact);
    ("change", change_contact);
    ("phone", show_phone);
    ("all", show_all_contacts);
    ("add-birthday", add_birthday);
    ("show-birthday", show_birthday);
    ("birthdays", show_birthdays today);
    ("exit", exit written);
    ("close", exit written) ].

(** [command in self.commands] and [self.commands[command]]. *)
Fixpoint lookup (command : string) (table : list (string * handler))
  : option handler :=
  match table with
  | [] => None
  | (k, h) :: rest =>
      if String.eqb k command then Some h else lookup command rest
  end.

(** The body of [parse_input]. *)
Definition parse_input_body (user_input : string) : string * list string :=
  let (cmd, rest) := PyStr.split_space_once user_input in
  let args :=
    match rest with
    | Some a => PyStr.split a
    | None => []
    end in
  (PyStr.lower (PyStr.strip cmd), args).

Definition parse_input (user_input : string)
  : M t (wrapped (string * list string)) :=
  input_error (ret (parse_input_body user_input)).

(** [command, args = self.parse_input(user_input)]: the unpacking works
    on the pair the body returns; a message string or a book returned by
    the decorator would not unpack into two names. *)
Definition unpack_parsed (w : wrapped (string * list string))
  : result (string * list string) :=
  match w with
  | Returned p => Ok p
  | Message _ => Raise (ValueError "too many values to unpack (expected 2)")
  | FreshBook _ => Raise (ValueError "not enough values to unpack (expected 2)")
  end.

(** One turn of the [while] loop of [run] on the line [user_input]; the
    value is [true] when the loop is left by [break]. *)
Definition step (today : Datetime.date) (written : result unit)
           (user_input : string) : M t bool :=
  w <- parse_input user_input ;;
  p <- lift (unpack_parsed w) ;;
  let (command, args) := p : string * list string in
  match lookup command (commands today written) with
  | Some h =>
      result <- h args ;;
      match result with
      | Some r => ret (String.eqb r "exit")
      | None => ret false
      end
  | None =>
      show_message "Invalid command." ;;
      ret false
  end.

(** How the loop stands after the lines read so far. *)
Inductive status : Type :=
| Exited      (* the loop was left by [break] *)
| Running.    (* the loop waits for the next line *)

Fixpoint loop (today : Datetime.date) (written : result unit)
         (inputs : list string) : M t status :=
  match inputs with
  | [] => ret Running
  | user_input :: rest =>
      stop <- step today written user_input ;;
      if stop : bool then ret Exited else loop today written rest
  end.

(** [run()], where [loaded] is the book [load_data()] returns,
    [inputs] are the lines the view reads, in order, and [written] is
    what writing the file does when [exit] is reached. *)
Definition run (today : Datetime.date) (written : result unit)
           (loaded : AddressBook.t) (inputs : list string) : M t status :=
  modify (fun self => mk loaded (printed self)) ;;
  show_message "Welcome to the assistant bot!" ;;
  loop today written inputs.

(** [ContactApp(view)]. *)
Definition new : t := mk [] [].

End ContactApp.

(** ** Predicates used in the statements *)

(** The characters of a string, in order. *)
Definition chars (s : string) : list ascii := list_ascii_of_string s.

(** A decimal digit, [0] to [9]. *)
Definition decimal_digit (c : ascii) : Prop := 48 <= PyStr.ord c <= 57.

(** A digit in the sense of [str.isdigit]: a decimal digit, or one of the
    superscript digits (code points 178, 179 and 185). *)
Definition python_digit (c : ascii) : Prop :=
  decimal_digit c \/ PyStr.ord c = 178 \/ PyStr.ord c = 179 \/ PyStr.ord c = 185.

(** Ten characters, all decimal digits. *)
Definition ten_decimal_digits (s : string) : Prop :=
  String.length s = 10%nat /\ Forall decimal_digit (chars s).

(** Ten characters, all digits in the sense of [str.isdigit]. *)
Definition ten_digits (s : string) : Prop :=
  String.length s = 10%nat /\ Forall python_digit (chars s).

(** The invariant of a record as the specification words it: at least
    one phone, every phone ten decimal digits. *)
Definition record_ok_decimal (r : Record.t) : Prop :=
  Record.phones r <> []
  /\ Forall (fun p => ten_decimal_digits (Field.value p)) (Record.phones r).

(** The same with the digits that [validate_phone] accepts. *)
Definition all_phones_valid (r : Record.t) : Prop :=
  Forall (fun p => ten_digits (Field.value p)) (Record.phones r).

Definition record_ok (r : Record.t) : Prop :=
  Record.phones r <> [] /\ all_phones_valid r.

(** A date object: its fields passed the check of the constructor. *)
Definition date_valid (d : Datetime.date) : Prop :=
  Datetime.fields_ok (Datetime.year d) (Datetime.month d) (Datetime.day d) = true.

(** The check that [_ord2md] gives, for the day number [n] of a year, a
    month from 1 to 12 and a day of that month, with [n] days of the year
    before it. *)
Definition md_ok (leapyear : bool) (n : Z) : bool :=
  let (m, dd) := Datetime._ord2md leapyear n in
  (1 <=? m) && (m <=? 12) && (1 <=? dd)
  && (dd <=? (if (m =? 2) && leapyear then 29
              else Datetime.index Datetime._DAYS_IN_MONTH m))
  && (Datetime.index Datetime._DAYS_BEFORE_MONTH m
      + (if (2 <? m) && leapyear then 1 else 0) + dd =? n + 1).

(** *** The texts of a date *)

(** One decimal digit, with its value. *)
Definition one_digit_text (T : string) (v : Z) : Prop :=
  exists a, T = String a EmptyString /\ Datetime.digit_val a = Some v.

(** Two decimal digits, with the value they denote. *)
Definition two_digit_text (T : string) (v : Z) : Prop :=
  exists a b x y,
    T = String a (String b EmptyString)
    /\ Datetime.digit_val a = Some x /\ Datetime.digit_val b = Some y
    /\ v = 10 * x + y.

(** Four decimal digits, with the value they denote. *)
Definition four_digit_text (T : string) (v : Z) : Prop :=
  exists a b c e x y z w,
    T = String a (String b (String c (String e EmptyString)))
    /\ Datetime.digit_val a = Some x /\ Datetime.digit_val b = Some y
    /\ Datetime.digit_val c = Some z /\ Datetime.digit_val e = Some w
    /\ v = 1000 * x + 100 * y + 10 * z + w.

(** A day: two digits, or one digit, or a space and one digit. *)
Definition day_text (D : string) (d : Z) : Prop :=
  two_digit_text D d \/ one_digit_text D d
  \/ exists T, D = String " " T /\ one_digit_text T d.

(** A month: two digits, or one digit. *)
Definition month_text (T : string) (m : Z) : Prop :=
  two_digit_text T m \/ one_digit_text T m.

(** The strings [day.month.year] that [strptime] reads with the format
    ["%d.%m.%Y"], with the numbers they denote. *)
Definition birthday_text (s : string) (d m y : Z) : Prop :=
  exists D T Y,
    s = D ++ "." ++ T ++ "." ++ Y
    /\ day_text D d /\ month_text T m /\ four_digit_text Y y.

(** The regular expression of the format has two kinds of digit: a
    class such as [[0-1]] or [[1-9]] matches the characters from "0" to
    "9" that lie in its range, and [\d] matches any decimal digit, which
    among the characters of this development are the same ten. *)

(** What the class [[lo-hi]] matches: [c] is the character from "0" to
    "9" of value [v], and [v] is from [lo] to [hi]. *)
Definition class_digit (lo hi : Z) (c : ascii) (v : Z) : Prop :=
  PyStr.ord c = 48 + v /\ lo <= v <= hi.

(** What [\d] matches: [c] is a decimal digit and [int] reads [v] from
    it. *)
Definition any_digit (c : ascii) (v : Z) : Prop :=
  Datetime.digit_val c = Some v.

(** Two characters, the first matched by [p] and the second by [q], with
    the number they denote. *)
Definition two_chars (p q : ascii -> Z -> Prop) (T : string) (v : Z) : Prop :=
  exists a b x y,
    T = String a (String b EmptyString)
    /\ p a x /\ q b y /\ v = 10 * x + y.

(** Four characters matched by [p], with the number they denote. *)
Definition four_chars (p : ascii -> Z -> Prop) (T : string) (v : Z) : Prop :=
  exists a b c e x y z w,
    T = String a (String b (String c (String e EmptyString)))
    /\ p a x /\ p b y /\ p c z /\ p e w
    /\ v = 1000 * x + 100 * y + 10 * z + w.

(** One character of [[1-9]]. *)
Definition one_char (T : string) (v : Z) : Prop :=
  exists a, T = String a EmptyString /\ class_digit 1 9 a v.

(** The day as the expression has it: [3[0-1]], [[1-2]\d], [0[1-9]],
    [[1-9]], or a space and [[1-9]]. *)
Definition day_pattern (D : string) (d : Z) : Prop :=
  two_chars (class_digit 3 3) (class_digit 0 1) D d
  \/ two_chars (class_digit 1 2) any_digit D d
  \/ two_chars (class_digit 0 0) (class_digit 1 9) D d
  \/ one_char D d
  \/ exists T, D = String " " T /\ one_char T d.

(** The month as the expression has it: [1[0-2]], [0[1-9]] or [[1-9]]. *)
Definition month_pattern (T : string) (m : Z) : Prop :=
  two_chars (class_digit 1 1) (class_digit 0 2) T m
  \/ two_chars (class_digit 0 0) (class_digit 1 9) T m
  \/ one_char T m.

(** The year as the expression has it: [\d\d\d\d]. *)
Definition year_pattern (Y : string) (y : Z) : Prop := four_chars any_digit Y y.

(** The strings that the expression of ["%d.%m.%Y"] matches from the
    first character to the last, with the numbers read from them. *)
Definition strptime_text (s : string) (d m y : Z) : Prop :=
  exists D T Y,
    s = D ++ "." ++ T ++ "." ++ Y
    /\ day_pattern D d /\ month_pattern T m /\ year_pattern Y y.

(** The strings of the form [dd.mm.yyyy]: two digits, two digits and four
    digits between dots, the digits being the characters "0" to "9". *)
Definition dd_mm_yyyy (s : string) (d m y : Z) : Prop :=
  exists D T Y,
    s = D ++ "." ++ T ++ "." ++ Y
    /\ two_chars (class_digit 0 9) (class_digit 0 9) D d
    /\ two_chars (class_digit 0 9) (class_digit 0 9) T m
    /\ four_chars (class_digit 0 9) Y y.

(** A group of the regular expression matches at the start of [s], with
    the value [v], and leaves [r]. *)
Definition group_matches (g : list Datetime.alternative) (s : string)
           (v : Z) (r : string) : Prop :=
  exists a, In a g /\ a s = Some (v, r).

(** What the regular expression matches: a day text, a dot, a month
    text, a dot, four digits, and then the rest of the string. *)
Definition regex_shape (s : string) (d m y : Z) (rest : string) : Prop :=
  exists D T Y,
    s = D ++ String "." (T ++ String "." (Y ++ rest))
    /\ day_text D d /\ 1 <= d <= 31
    /\ month_text T m /\ 1 <= m <= 12
    /\ four_digit_text Y y.

(** A record whose birthday, if any, is the text of a real date other
    than 29 February. *)
Definition plain_birthday (r : Record.t) : Prop :=
  forall b, Record.birthday r = Some b ->
    exists d m y, birthday_text (Field.value b) d m y
                  /\ Datetime.fields_ok y m d = true /\ ~ (m = 2 /\ d = 29).

(** *** The book and the session *)

(** The names of a book, in its order. *)
Definition keys (data : AddressBook.t) : list string := map fst data.

(** An entry of the book is in order: the record stands under its own
    name and satisfies the invariant of a record. *)
Definition entry_ok (kr : string * Record.t) : Prop :=
  Field.value (Record.name (snd kr)) = fst kr /\ record_ok (snd kr).

(** A book is in order: no name occurs twice and every entry is in
    order. *)
Definition book_ok (data : AddressBook.t) : Prop :=
  NoDup (keys data) /\ Forall entry_ok data.

(** What a command may do to the book: nothing; change the record under
    a name that is there, keeping the name of the record and its invariant;
    or add a record that was just created under a name that is not there. *)
Inductive book_change (b : AddressBook.t) : AddressBook.t -> Prop :=
| book_same : book_change b b
| book_record_changed (name : string) (r r' : Record.t) :
    AddressBook.find name b = Some r ->
    Record.name r' = Record.name r ->
    (record_ok r -> record_ok r') ->
    book_change b (AddressBook.setitem name r' b)
| book_record_added (name phone : string) (r : Record.t) :
    AddressBook.find name b = None ->
    Record.new name phone None = Ok r ->
    book_change b (AddressBook.add_record r b).

(** The list [l'] is [l] with more at its end. *)
Definition grows {A} (l l' : list A) : Prop := exists more, l' = (l ++ more)%list.

(** The exception classes that [input_error] catches. *)
Definition caught (e : exn) : bool :=
  match e with
  | ValueError _ | IndexError _ | KeyError _ | FileNotFoundError _ => true
  | _ => false
  end.

(** [save_data] comes back to its caller: writing the file returned, or
    raised an exception that [input_error] catches. *)
Definition saved (written : result unit) : bool :=
  match written with
  | Ok _ => true
  | Raise e => caught e
  end.

(** A handler changes the book only in the ways of [book_change], and
    only adds to what is printed. *)
Definition handler_effect (h : ContactApp.handler) : Prop :=
  forall args self,
    book_change (ContactApp.book self) (ContactApp.book (snd (h args self)))
    /\ grows (ContactApp.printed self) (ContactApp.printed (snd (h args self))).

(** A handler leaves the book as it is. *)
Definition reads_only (h : ContactApp.handler) : Prop :=
  forall args self, ContactApp.book (snd (h args self)) = ContactApp.book self.

(** A record whose birthday passed the validation of [Birthday]. *)
Definition validated_birthday (r : Record.t) : Prop :=
  exists b, Record.birthday r = Some b /\ Birthday.new (Field.value b) = Ok b.

(** A string without white space, and a word: such a string that is not
    empty. *)
Definition no_space (s : string) : Prop :=
  Forall (fun c => PyStr.isspace_char c = false) (chars s).

Definition word (s : string) : Prop := s <> "" /\ no_space s.

(** ** Data of the scenarios *)

(** The string of ten superscript twos. *)
Definition superscript_twos : string :=
  let c := ascii_of_nat 178 in
  String c (String c (String c (String c (String c
    (String c (String c (String c (String c (String c EmptyString))))))))).

(** The record [Record("Ann", "1234567890")]. *)
Definition ann : Record.t :=
  Record.mk (Name.new "Ann") [Field.mk "1234567890"] None.

(** The record [Record("Ann", "1234567890", "29.02.2000")]. *)
Definition leap_ann : Record.t :=
  Record.mk (Name.new "Ann") [Field.mk "1234567890"] (Some (Field.mk "29.02.2000")).

(** The record [Record("Ann", "1234567890", "08.06.1990")]. *)
Definition june_ann : Record.t :=
  Record.mk (Name.new "Ann") [Field.mk "1234567890"] (Some (Field.mk "08.06.1990")).

(** Saturday 8 June 2024. *)
Definition saturday : Datetime.date := Datetime.mkdate 2024 6 8.

(** [date.max], 31 December 9999. *)
Definition date_max : Datetime.date := Datetime.mkdate 9999 12 31.

(** * Properties *)

(** ** Strings *)

Lemma ord_range (c : ascii) : 0 <= PyStr.ord c < 256.
Proof.
  unfold PyStr.ord. pose proof (N_ascii_bounded c). lia.
Qed.

Lemma len_eq (s : string) (n : nat) :
  (PyStr.len s =? Z.of_nat n) = true <-> String.length s = n.
Proof.
  unfold PyStr.len. rewrite Z.eqb_eq. lia.
Qed.

Lemma isdigit_char_iff (c : ascii) :
  PyStr.isdigit_char c = true <-> python_digit c.
Proof.
  unfold PyStr.isdigit_char, python_digit, decimal_digit.
  rewrite !orb_true_iff, andb_true_iff, !Z.leb_le, !Z.eqb_eq. tauto.
Qed.

Lemma all_chars_Forall (p : ascii -> bool) (s : string) :
  PyStr.all_chars p s = true <-> Forall (fun c => p c = true) (chars s).
Proof.
  induction s as [|c r IH]; simpl.
  - split; [constructor | reflexivity].
  - rewrite andb_true_iff, IH. split.
    + intros [Hc Hr]. constructor; assumption.
    + intros H. inversion H; subst. split; assumption.
Qed.

Lemma length_truthy (s : string) (n : nat) :
  String.length s = S n -> PyStr.truthy s = true.
Proof.
  destruct s; simpl; [discriminate | reflexivity].
Qed.

Lemma validate_phone_ten_digits (s : string) :
  Phone.validate_phone s = true <-> ten_digits s.
Proof.
  unfold Phone.validate_phone, ten_digits, PyStr.isdigit.
  rewrite !andb_true_iff, all_chars_Forall.
  change 10 with (Z.of_nat 10). rewrite len_eq.
  split.
  - intros [Hl [_ Hd]]. split; [exact Hl|].
    eapply Forall_impl; [|exact Hd]. intros c. apply isdigit_char_iff.
  - intros [Hl Hd]. split; [exact Hl|]. split.
    + eapply length_truthy. exact Hl.
    + eapply Forall_impl; [|exact Hd]. intros c. apply isdigit_char_iff.
Qed.

Lemma decimal_is_python_digit (c : ascii) : decimal_digit c -> python_digit c.
Proof. intros H. left. exact H. Qed.

Lemma ten_decimal_is_ten_digits (s : string) :
  ten_decimal_digits s -> ten_digits s.
Proof.
  intros [Hl Hd]. split; [exact Hl|].
  eapply Forall_impl; [|exact Hd]. exact decimal_is_python_digit.
Qed.

(** C6, as stated, fails: the string of ten superscript twos has no
    decimal digit in it, and [validate_phone] accepts it. *)
Lemma validate_phone_accepts_superscripts :
  Phone.validate_phone superscript_twos = true
  /\ ~ (String.length superscript_twos = 10%nat
        /\ Forall decimal_digit (chars superscript_twos)).
Proof.
  split; [reflexivity|].
  intros [_ H]. inversion H as [|c l Hc _]; subst.
  unfold decimal_digit in Hc. vm_compute in Hc. destruct Hc as [_ Hc].
  apply Hc. reflexivity.
Qed.

(** C6, amended: [validate_phone s] is true exactly when [s] has ten
    characters and each is a digit in the sense of [str.isdigit] (a
    decimal digit or a superscript digit).  In particular it is true for
    every string of ten decimal digits, false for every string of another
    length, and false for every string with a character that is no such
    digit. *)
Theorem validate_phone_spec (s : string) :
  (Phone.validate_phone s = true <->
     String.length s = 10%nat /\ Forall python_digit (chars s))
  /\ (ten_decimal_digits s -> Phone.validate_phone s = true)
  /\ (String.length s <> 10%nat -> Phone.validate_phone s = false)
  /\ (Exists (fun c => ~ python_digit c) (chars s) ->
      Phone.validate_phone s = false).
Proof.
  split; [apply validate_phone_ten_digits|].
  split; [intros H; apply validate_phone_ten_digits, ten_decimal_is_ten_digits, H|].
  split.
  - intros Hl. apply not_true_is_false. intros H.
    apply validate_phone_ten_digits in H. destruct H as [H _]. contradiction.
  - intros Hex. apply not_true_is_false. intros H.
    apply validate_phone_ten_digits in H. destruct H as [_ H].
    apply Exists_exists in Hex. destruct Hex as [c [Hin Hc]].
    rewrite Forall_forall in H. apply Hc, H, Hin.
Qed.

(** ** The class [Record] *)

Lemma new_phone_valid (p : string) :
  Phone.validate_phone p = true -> Phone.new p = Ok (Field.mk p).
Proof.
  intros H. unfold Phone.new. rewrite H. reflexivity.
Qed.

Lemma add_phone_valid (r : Record.t) (p : string) :
  Phone.validate_phone p = true ->
  Record.add_phone p r
  = (Ok (Field.mk p), Record.set_phones (Record.phones r ++ [Field.mk p]) r).
Proof.
  intros H. unfold Record.add_phone. rewrite H.
  unfold bind, lift, modify, ret. rewrite (new_phone_valid p H). reflexivity.
Qed.

Lemma add_phone_invalid (r : Record.t) (p : string) :
  Phone.validate_phone p = false ->
  Record.add_phone p r = (Raise (ValueError "Invalid phone number"), r).
Proof.
  intros H. unfold Record.add_phone. rewrite H. reflexivity.
Qed.

(** What [add_phone] does on the record of Ann. *)
Example add_phone_appends :
  Record.add_phone "0987654321" ann
  = (Ok (Field.mk "0987654321"),
     Record.mk (Name.new "Ann")
               [Field.mk "1234567890"; Field.mk "0987654321"] None).
Proof. reflexivity. Qed.

Example add_phone_refuses :
  Record.add_phone "12345" ann = (Raise (ValueError "Invalid phone number"), ann)
  /\ Record.add_phone "12345abcde" ann
     = (Raise (ValueError "Invalid phone number"), ann).
Proof. split; reflexivity. Qed.

(** C10: [add_phone] either raises and leaves the record as it was (for
    a string that is not ten characters, all digits), or appends one
    phone with the given value at the end and leaves the phones before it
    as they were (for a valid string).  Digits are those that
    [str.isdigit] accepts. *)
Theorem add_phone_atomic (r : Record.t) (p : string) :
  (~ ten_digits p ->
     exists msg, Record.add_phone p r = (Raise (ValueError msg), r))
  /\ (ten_digits p ->
      exists r',
        Record.add_phone p r = (Ok (Field.mk p), r')
        /\ Record.phones r' = (Record.phones r ++ [Field.mk p])%list
        /\ Record.name r' = Record.name r
        /\ Record.birthday r' = Record.birthday r).
Proof.
  split.
  - intros H. exists "Invalid phone number". apply add_phone_invalid.
    apply not_true_is_false. intros Hv. apply H, validate_phone_ten_digits, Hv.
  - intros H. apply validate_phone_ten_digits in H.
    eexists. split; [apply add_phone_valid, H|].
    repeat split.
Qed.

Lemma find_in_none (phone : string) (ps : list Phone.t) :
  Record.find_in phone ps = None <-> ~ In phone (map Field.value ps).
Proof.
  induction ps as [|p rest IH]; simpl.
  - tauto.
  - destruct (String.eqb_spec (Field.value p) phone) as [E|E].
    + split; [discriminate | intros H; exfalso; apply H; left; exact E].
    + destruct (Record.find_in phone rest) as [n|]; simpl.
      * split; [discriminate|]. intros H.
        assert (X : Some n = None) by (apply IH; tauto). discriminate.
      * split; [|reflexivity]. intros _ [H|H]; [contradiction|].
        apply IH in H; [exact H | reflexivity].
Qed.

Lemma find_in_some (phone : string) (ps : list Phone.t) :
  In phone (map Field.value ps) -> exists i, Record.find_in phone ps = Some i.
Proof.
  intros H. destruct (Record.find_in phone ps) as [i|] eqn:E.
  - exists i. reflexivity.
  - apply find_in_none in E. contradiction.
Qed.

(** The first two outcomes of [edit_phone]. *)
Lemma edit_phone_bad_length (r : Record.t) (old_phone new_phone : string) :
  String.length new_phone <> 10%nat ->
  Record.edit_phone old_phone new_phone r
  = (Raise (ValueError "Invalid phone number: must be 10 digits."), r).
Proof.
  intros H. unfold Record.edit_phone.
  destruct (PyStr.len new_phone =? 10) eqn:E; [|reflexivity].
  change 10 with (Z.of_nat 10) in E. apply len_eq in E. contradiction.
Qed.

Lemma edit_phone_not_found (r : Record.t) (old_phone new_phone : string) :
  String.length new_phone = 10%nat ->
  ~ In old_phone (map Field.value (Record.phones r)) ->
  Record.edit_phone old_phone new_phone r
  = (Raise (ValueError "Phone number not found"), r).
Proof.
  intros Hl Hn. unfold Record.edit_phone.
  change 10 with (Z.of_nat 10). apply len_eq in Hl. rewrite Hl. simpl.
  apply find_in_none in Hn.
  unfold bind, Record.find_phone, bind, get, ret. rewrite Hn. reflexivity.
Qed.

(** The third outcome: the call [new_phone(Phone)] raises before the
    assignment, whatever the record and the strings. *)
Lemma edit_phone_found (r : Record.t) (old_phone new_phone : string) :
  String.length new_phone = 10%nat ->
  In old_phone (map Field.value (Record.phones r)) ->
  Record.edit_phone old_phone new_phone r
  = (Raise (TypeError "'str' object is not callable"), r).
Proof.
  intros Hl Hin. unfold Record.edit_phone.
  change 10 with (Z.of_nat 10). apply len_eq in Hl. rewrite Hl. simpl.
  destruct (find_in_some _ _ Hin) as [i Hi].
  unfold bind, Record.find_phone, bind, get, ret. rewrite Hi. reflexivity.
Qed.

Lemma edit_phone_state (r : Record.t) (old_phone new_phone : string) :
  snd (Record.edit_phone old_phone new_phone r) = r.
Proof.
  unfold Record.edit_phone.
  destruct (PyStr.len new_phone =? 10); simpl; [|reflexivity].
  unfold bind, Record.find_phone, bind, get, ret.
  destruct (Record.find_in old_phone (Record.phones r)); reflexivity.
Qed.

(** C1, at a record that holds the old phone: [edit_phone] raises
    [TypeError] and the record keeps the old phone. *)
Theorem edit_phone_present_raises :
  Record.new "Ann" "1234567890" None = Ok ann
  /\ Record.edit_phone "1234567890" "0987654321" ann
     = (Raise (TypeError "'str' object is not callable"), ann).
Proof.
  split; reflexivity.
Qed.

Lemma Forall_remove_at {A} (P : A -> Prop) (i : nat) (l : list A) :
  Forall P l -> Forall P (Record.remove_at i l).
Proof.
  intros H. revert i. induction H as [|x l Hx Hl IH]; intros i.
  - destruct i; constructor.
  - destruct i; simpl; [exact Hl|]. constructor; [exact Hx | apply IH].
Qed.

Lemma remove_phone_phones (r : Record.t) (p : string) :
  Record.phones (snd (Record.remove_phone p r)) = Record.phones r
  \/ exists i, Record.phones (snd (Record.remove_phone p r))
               = Record.remove_at i (Record.phones r).
Proof.
  unfold Record.remove_phone, bind, Record.find_phone, bind, get, put, ret.
  destruct (Record.find_in p (Record.phones r)) as [i|]; simpl.
  - right. exists i. reflexivity.
  - left. reflexivity.
Qed.

Lemma edit_birthday_phones (r : Record.t) (b : string) :
  Record.phones (snd (Record.edit_birthday b r)) = Record.phones r.
Proof.
  unfold Record.edit_birthday, bind, lift, modify.
  destruct (Birthday.new b); reflexivity.
Qed.

Lemma add_phone_ok (r : Record.t) (p : string) :
  record_ok r -> record_ok (snd (Record.add_phone p r)).
Proof.
  intros [Hne Hall].
  destruct (Phone.validate_phone p) eqn:E.
  - rewrite (add_phone_valid r p E). simpl. split.
    + intros H. apply app_eq_nil in H. destruct H as [_ H]. discriminate.
    + unfold all_phones_valid. simpl. apply Forall_app. split; [exact Hall|].
      constructor; [|constructor]. apply validate_phone_ten_digits, E.
  - rewrite (add_phone_invalid r p E). split; assumption.
Qed.

Lemma new_record_ok (n p : string) (b : option string) (r : Record.t) :
  Record.new n p b = Ok r -> record_ok r.
Proof.
  unfold Record.new, and_then, Phone.new.
  destruct (Phone.validate_phone p) eqn:E; simpl; [|discriminate].
  intros H.
  assert (Hp : Record.phones r = [Field.mk p]).
  { destruct b as [b|]; [destruct (PyStr.truthy b); [destruct (Birthday.new b)|]|];
      simpl in H; try discriminate; injection H as <-; reflexivity. }
  unfold record_ok, all_phones_valid. rewrite Hp. split; [discriminate|].
  constructor; [|constructor]. apply validate_phone_ten_digits, E.
Qed.

(** C5, as stated, fails twice.  [remove_phone] takes the only phone of
    a record away; and [add_phone] stores a phone of ten superscript
    digits, which are no decimal digits. *)
Lemma record_invariant_broken :
  Record.new "Ann" "1234567890" None = Ok ann
  /\ record_ok_decimal ann
  /\ Record.phones (snd (Record.remove_phone "1234567890" ann)) = []
  /\ ~ record_ok_decimal (snd (Record.remove_phone "1234567890" ann))
  /\ fst (Record.add_phone superscript_twos ann) = Ok (Field.mk superscript_twos)
  /\ ~ record_ok_decimal (snd (Record.add_phone superscript_twos ann)).
Proof.
  split; [reflexivity|]. split.
  { split; [discriminate|]. constructor; [|constructor].
    split; [reflexivity|].
    unfold chars. simpl.
    repeat (apply Forall_cons;
            [unfold decimal_digit; vm_compute; split; discriminate|]).
    apply Forall_nil. }
  split; [reflexivity|]. split.
  { intros [H _]. apply H. reflexivity. }
  split; [reflexivity|].
  intros [_ H]. simpl in H.
  inversion H as [|x l _ H2]; subst. inversion H2 as [|y l' [_ H3] _]; subst.
  simpl in H3. inversion H3 as [|c l'' Hc _]; subst.
  unfold decimal_digit in Hc. vm_compute in Hc. destruct Hc as [_ Hc].
  apply Hc. reflexivity.
Qed.

(** C5, amended: a record that holds at least one phone, each of ten
    digits as [validate_phone] accepts them, still does so after
    [add_phone], [edit_phone] and [edit_birthday], whether the call
    returns or raises; after [remove_phone] every phone that is left is
    still of ten such digits.  A record that was created satisfies the
    invariant. *)
Theorem record_invariant_preserved (r : Record.t) (H : record_ok r) :
  (forall p, record_ok (snd (Record.add_phone p r)))
  /\ (forall old_phone new_phone,
        record_ok (snd (Record.edit_phone old_phone new_phone r)))
  /\ (forall b, record_ok (snd (Record.edit_birthday b r)))
  /\ (forall p, all_phones_valid (snd (Record.remove_phone p r))).
Proof.
  split; [intros p; apply add_phone_ok, H|].
  split; [intros o n; rewrite edit_phone_state; exact H|].
  split.
  - intros b. unfold record_ok, all_phones_valid.
    rewrite edit_birthday_phones. exact H.
  - intros p. unfold all_phones_valid. destruct H as [_ Hall].
    destruct (remove_phone_phones r p) as [E|[i E]]; rewrite E.
    + exact Hall.
    + apply Forall_remove_at, Hall.
Qed.

Lemma record_invariant_preserved_witness :
  record_ok ann
  /\ (forall p, record_ok (snd (Record.add_phone p ann))).
Proof.
  assert (H : record_ok ann).
  { split; [discriminate|]. constructor; [|constructor].
    split; [reflexivity|]. unfold chars. simpl.
    repeat (apply Forall_cons;
            [left; unfold decimal_digit; vm_compute; split; discriminate|]).
    apply Forall_nil. }
  split; [exact H|]. apply (record_invariant_preserved ann H).
Defined.

(** ** The birthday schedule *)

Lemma upcoming_loop_acc (records : list Record.t) (days : Z)
      (today : Datetime.date) (acc : list AddressBook.upcoming) :
  AddressBook.upcoming_loop records days today acc
  = and_then (AddressBook.upcoming_loop records days today [])
             (fun l => Ok (acc ++ l)%list).
Proof.
  revert acc. induction records as [|r rest IH]; intros acc; simpl.
  - rewrite app_nil_r. reflexivity.
  - destruct (Record.birthday r) as [b|]; [|apply IH].
    destruct (AddressBook.adjusted_birthday (Field.value b) today) as [adj|e];
      simpl; [|reflexivity].
    destruct ((0 <=? Datetime.sub_days adj today)
              && (Datetime.sub_days adj today <=? days)); [|apply IH].
    rewrite (IH (acc ++ _)%list), (IH [_]).
    destruct (AddressBook.upcoming_loop rest days today []) as [l|e]; simpl;
      [|reflexivity].
    rewrite <- app_assoc. reflexivity.
Qed.

Lemma upcoming_loop_app (records : list Record.t) (days : Z)
      (today : Datetime.date) (acc l : list AddressBook.upcoming) :
  AddressBook.upcoming_loop records days today acc = Ok l ->
  exists l', l = (acc ++ l')%list
             /\ AddressBook.upcoming_loop records days today [] = Ok l'.
Proof.
  rewrite upcoming_loop_acc.
  destruct (AddressBook.upcoming_loop records days today []) as [l'|e]; simpl;
    [|discriminate].
  intros H. injection H as <-. exists l'. split; reflexivity.
Qed.

(** When the schedule returns a list, an entry is in it exactly when
    it comes from a record with a birthday whose adjusted date is at most
    [days] days after [today], both ends included. *)
Lemma get_upcoming_birthdays_member (data : AddressBook.t) (days : Z)
      (today : Datetime.date) (l : list AddressBook.upcoming) :
  AddressBook.get_upcoming_birthdays data days today = Ok l ->
  forall u,
    In u l <->
    exists r b,
      In r (AddressBook.values data)
      /\ Record.birthday r = Some b
      /\ AddressBook.u_name u = Field.value (Record.name r)
      /\ AddressBook.adjusted_birthday (Field.value b) today
         = Ok (AddressBook.u_birthday u)
      /\ 0 <= Datetime.sub_days (AddressBook.u_birthday u) today <= days.
Proof.
  unfold AddressBook.get_upcoming_birthdays.
  generalize (AddressBook.values data) as records. clear data.
  intros records. revert l. induction records as [|r rest IH]; intros l; simpl.
  - intros H. injection H as <-. intros u. split; [intros []|].
    intros [r [b [[] _]]].
  - destruct (Record.birthday r) as [b|] eqn:Eb.
    + destruct (AddressBook.adjusted_birthday (Field.value b) today) as [adj|e] eqn:Ea;
        simpl; [|discriminate].
      destruct ((0 <=? Datetime.sub_days adj today)
                && (Datetime.sub_days adj today <=? days)) eqn:Ew.
      * intros H. apply upcoming_loop_app in H. destruct H as [l' [-> H]].
        specialize (IH _ H). intros u. simpl. rewrite IH. split.
        -- intros [<-|[r' [b' [Hin Hrest]]]].
           ++ exists r, b. simpl. apply andb_true_iff in Ew.
              rewrite Z.leb_le, Z.leb_le in Ew. tauto.
           ++ exists r', b'. tauto.
        -- intros [r' [b' [[<-|Hin] [Hb [Hn [Ha Hw]]]]]].
           ++ left. rewrite Eb in Hb. injection Hb as <-.
              rewrite Ea in Ha. injection Ha as ->.
              destruct u as [n d]. simpl in *. rewrite Hn. reflexivity.
           ++ right. exists r', b'. tauto.
      * intros H. specialize (IH _ H). intros u. rewrite IH. split.
        -- intros [r' [b' [Hin Hrest]]]. exists r', b'. tauto.
        -- intros [r' [b' [[<-|Hin] [Hb [Hn [Ha Hw]]]]]].
           ++ exfalso. rewrite Eb in Hb. injection Hb as <-.
              rewrite Ea in Ha. injection Ha as ->.
              apply andb_false_iff in Ew. rewrite !Z.leb_gt in Ew. lia.
           ++ exists r', b'. tauto.
    + intros H. specialize (IH _ H). intros u. rewrite IH. split.
      * intros [r' [b' [Hin Hrest]]]. exists r', b'. tauto.
      * intros [r' [b' [[<-|Hin] [Hb Hrest]]]].
        -- rewrite Eb in Hb. discriminate.
        -- exists r', b'. tauto.
Qed.

(** The scenario of C3: on Monday 3 June 2024, with a window of 7 days,
    the birthday "08.06.1990" is due on Monday 10 June 2024. *)
Lemma june_birthday_scenario :
  Datetime.weekday (Datetime.mkdate 2024 6 3) = 0
  /\ AddressBook.get_upcoming_birthdays [("Ann", june_ann)] 7
       (Datetime.mkdate 2024 6 3)
     = Ok [AddressBook.mk_upcoming "Ann" (Datetime.mkdate 2024 6 10)].
Proof.
  split; reflexivity.
Qed.

(** C3, at a record born on 29 February, in a year that is no leap
    year: the record is created without error, and the schedule raises
    [ValueError] where it moves the birthday to the year of [today]; no
    list is returned. *)
Theorem leap_day_birthday_raises :
  Record.new "Ann" "1234567890" (Some "29.02.2000") = Ok leap_ann
  /\ AddressBook.get_upcoming_birthdays [("Ann", leap_ann)] 7
       (Datetime.mkdate 2023 6 3)
     = Raise (ValueError "day is out of range for month").
Proof.
  split; reflexivity.
Qed.

(** ** The dispatcher *)

(** What [parse_input] does on some lines. *)
Example parse_input_add :
  ContactApp.parse_input_body "ADD  Ann   1234567890 " = ("add", ["Ann"; "1234567890"]).
Proof. reflexivity. Qed.

Example parse_input_leading_space :
  ContactApp.parse_input_body " add Ann" = ("", ["add"; "Ann"]).
Proof. reflexivity. Qed.

Lemma lookup_none (command : string) (table : list (string * ContactApp.handler)) :
  ~ In command (map fst table) -> ContactApp.lookup command table = None.
Proof.
  induction table as [|[k h] rest IH]; simpl; [reflexivity|].
  intros H. destruct (String.eqb_spec k command) as [E|E].
  - exfalso. apply H. left. exact E.
  - apply IH. intros Hin. apply H. right. exact Hin.
Qed.

(** C8: on an empty book the line "add Ann 1234567890" prints
    "Contact added." and the book then finds under "Ann" a record whose
    only phone is "1234567890"; the same line again prints "Phone added."
    and the record then holds two phones. *)
Theorem add_ann_twice (today : Datetime.date) (written : result unit) :
  let line := "add Ann 1234567890" in
  let ann2 := Record.mk (Name.new "Ann")
                [Field.mk "1234567890"; Field.mk "1234567890"] None in
  let s1 := ContactApp.mk [("Ann", ann)] ["Contact added."] in
  let s2 := ContactApp.mk [("Ann", ann2)] ["Contact added."; "Phone added."] in
  ContactApp.step today written line ContactApp.new = (Ok false, s1)
  /\ AddressBook.find "Ann" (ContactApp.book s1) = Some ann
  /\ map Field.value (Record.phones ann) = ["1234567890"]
  /\ ContactApp.step today written line s1 = (Ok false, s2)
  /\ AddressBook.find "Ann" (ContactApp.book s2) = Some ann2
  /\ List.length (Record.phones ann2) = 2%nat.
Proof.
  repeat split; reflexivity.
Qed.

(** C9: a line whose command word is not a key of the command table
    prints "Invalid command." and leaves the book as it was. *)
Theorem unknown_command_frame (today : Datetime.date)
        (written : result unit) (self : ContactApp.t) (line : string)
        (H : ~ In (fst (ContactApp.parse_input_body line))
                  (map fst (ContactApp.commands today written))) :
  ContactApp.step today written line self
  = (Ok false,
     ContactApp.mk (ContactApp.book self)
                   (ContactApp.printed self ++ ["Invalid command."])).
Proof.
  apply lookup_none in H.
  unfold ContactApp.step, ContactApp.parse_input, input_error, bind, ret, lift.
  destruct (ContactApp.parse_input_body line) as [command args].
  simpl in H. simpl. rewrite H. reflexivity.
Qed.

Lemma unknown_command_frame_witness :
  ContactApp.step (Datetime.mkdate 2024 6 3) (Ok tt) "frobnicate"
                  (ContactApp.mk [("Ann", ann)] [])
  = (Ok false, ContactApp.mk [("Ann", ann)] ["Invalid command."]).
Proof.
  apply (unknown_command_frame (Datetime.mkdate 2024 6 3) (Ok tt)
                               (ContactApp.mk [("Ann", ann)] []) "frobnicate").
  vm_compute. intros H.
  repeat (destruct H as [H|H]; [discriminate H|]). exact H.
Defined.

(** C2, at the line "add Ann": the unpacking of the arguments raises
    [ValueError] in the handler, nothing catches it, and [run] ends with
    that exception, whatever the book that was loaded; the line after it
    is never read.  The function [add_contact] of the module, which
    carries the decorator, returns a message on the same arguments. *)
Theorem run_ends_on_missing_argument (today : Datetime.date)
        (written : result unit) (loaded : AddressBook.t) :
  ContactApp.run today written loaded ["add Ann"; "hello"] ContactApp.new
  = (Raise (ValueError "not enough values to unpack (expected 2)"),
     ContactApp.mk loaded ["Welcome to the assistant bot!"])
  /\ add_contact ["Ann"] loaded
     = (Ok (Message "Give me name and phone please."), loaded).
Proof.
  split; reflexivity.
Qed.

(** ** The calendar *)

(** Tactics for the tables of the calendar: the first evaluates the
    look-ups at a known index, the second the tests on known numbers, the
    third splits a month into its twelve cases. *)
Ltac eval_index :=
  repeat match goal with
         | |- context [Datetime.index ?t ?k] =>
             let v := eval vm_compute in (Datetime.index t k) in
             change (Datetime.index t k) with v
         end.

Ltac eval_tests :=
  repeat match goal with
         | |- context [if ?b then ?x else ?y] =>
             let v := eval vm_compute in b in
             change (if b then x else y) with (if v then x else y);
             cbv iota
         end.

Ltac month_cases m :=
  let H := fresh in
  assert (H : m = 1 \/ m = 2 \/ m = 3 \/ m = 4 \/ m = 5 \/ m = 6 \/ m = 7
              \/ m = 8 \/ m = 9 \/ m = 10 \/ m = 11 \/ m = 12) by lia;
  repeat (destruct H as [H|H]; [subst m|]); [..|subst m].

Section Calendar.

Import Datetime.

(** The days before a year, from the cycles the year is made of. *)
Lemma days_before_year_cycles (n400 n100 n4 n1 : Z) :
  0 <= n400 -> 0 <= n100 <= 3 -> 0 <= n4 <= 24 -> 0 <= n1 <= 3 ->
  _days_before_year (n400 * 400 + 1 + (n100 * 100 + n4 * 4 + n1))
  = n400 * 146097 + n100 * 36524 + n4 * 1461 + n1 * 365.
Proof.
  intros H400 H100 H4 H1. unfold _days_before_year.
  Z.div_mod_to_equations. lia.
Qed.

(** The flag [leapyear] of [_ord2ymd] is the leap-year test of the year. *)
Lemma is_leap_cycles (n400 n100 n4 n1 : Z) :
  0 <= n400 -> 0 <= n100 <= 3 -> 0 <= n4 <= 24 -> 0 <= n1 <= 3 ->
  _is_leap (n400 * 400 + 1 + (n100 * 100 + n4 * 4 + n1))
  = (n1 =? 3) && (negb (n4 =? 24) || (n100 =? 3)).
Proof.
  intros H400 H100 H4 H1. unfold _is_leap.
  apply eq_true_iff_eq.
  rewrite !andb_true_iff, !orb_true_iff, !negb_true_iff, !Z.eqb_eq, !Z.eqb_neq.
  Z.div_mod_to_equations. lia.
Qed.

(** The month estimate of [_ord2md] is right on every day number. *)
Lemma md_ok_all (lp : bool) (n : Z) : 0 <= n < 365 -> md_ok lp n = true.
Proof.
  intros H.
  assert (A : forallb (fun k => md_ok true (Z.of_nat k) && md_ok false (Z.of_nat k))
                      (seq 0 365) = true) by (vm_compute; reflexivity).
  rewrite forallb_forall in A.
  specialize (A (Z.to_nat n)).
  rewrite Z2Nat.id in A by lia.
  assert (Hin : In (Z.to_nat n) (seq 0 365)) by (apply in_seq; lia).
  apply A in Hin. apply andb_true_iff in Hin. destruct lp; tauto.
Qed.

(** [_ord2ymd] gives a date, and the date has the ordinal it came from. *)
Lemma ord2ymd_ymd2ord (o : Z) :
  1 <= o <= _MAXORDINAL ->
  let '(y, m, dd) := _ord2ymd o in
  _ymd2ord y m dd = o /\ fields_ok y m dd = true.
Proof.
  intros Ho. unfold _MAXORDINAL in Ho. unfold _ord2ymd, _DI400Y, _DI100Y, _DI4Y.
  pose proof (Z.div_mod (o - 1) 146097 ltac:(lia)) as E1.
  pose proof (Z.mod_pos_bound (o - 1) 146097 ltac:(lia)) as B1.
  set (n400 := (o - 1) / 146097) in *. set (r1 := (o - 1) mod 146097) in *.
  pose proof (Z.div_mod r1 36524 ltac:(lia)) as E2.
  pose proof (Z.mod_pos_bound r1 36524 ltac:(lia)) as B2.
  set (n100 := r1 / 36524) in *. set (r2 := r1 mod 36524) in *.
  pose proof (Z.div_mod r2 1461 ltac:(lia)) as E3.
  pose proof (Z.mod_pos_bound r2 1461 ltac:(lia)) as B3.
  set (n4 := r2 / 1461) in *. set (r3 := r2 mod 1461) in *.
  pose proof (Z.div_mod r3 365 ltac:(lia)) as E4.
  pose proof (Z.mod_pos_bound r3 365 ltac:(lia)) as B4.
  set (n1 := r3 / 365) in *. set (r4 := r3 mod 365) in *.
  clearbody n400 r1 n100 r2 n4 r3 n1 r4.
  assert (H400 : 0 <= n400 <= 24) by lia.
  assert (H100 : 0 <= n100 <= 4) by lia.
  assert (H4 : 0 <= n4 <= 24) by lia.
  assert (H1 : 0 <= n1 <= 4) by lia.
  destruct ((n1 =? 4) || (n100 =? 4)) eqn:Eend.
  - apply orb_true_iff in Eend. rewrite !Z.eqb_eq in Eend.
    set (Y := n400 * 400 + 1 + (n100 * 100 + n4 * 4 + n1) - 1).
    assert (EY : Y = n400 * 400 + n100 * 100 + n4 * 4 + n1) by (unfold Y; lia).
    clearbody Y.
    assert (Hleap : _is_leap Y = true).
    { unfold _is_leap.
      rewrite !andb_true_iff, !orb_true_iff, !negb_true_iff, !Z.eqb_eq, !Z.eqb_neq.
      Z.div_mod_to_equations. lia. }
    unfold _ymd2ord, _days_before_month, fields_ok, _days_in_month, MINYEAR, MAXYEAR.
    rewrite Hleap. simpl.
    unfold _days_before_year. split.
    + Z.div_mod_to_equations. lia.
    + change (index _DAYS_IN_MONTH 12) with 31.
      rewrite !andb_true_iff, !Z.leb_le. lia.
  - apply orb_false_iff in Eend. rewrite !Z.eqb_neq in Eend.
    pose proof (is_leap_cycles n400 n100 n4 n1 ltac:(lia) ltac:(lia) ltac:(lia) ltac:(lia)) as Hleap.
    pose proof (days_before_year_cycles n400 n100 n4 n1 ltac:(lia) ltac:(lia) ltac:(lia) ltac:(lia)) as Hdby.
    set (Y := n400 * 400 + 1 + (n100 * 100 + n4 * 4 + n1)) in *.
    rewrite <- Hleap.
    pose proof (md_ok_all (_is_leap Y) r4 ltac:(lia)) as Hmd.
    unfold md_ok in Hmd.
    destruct (_ord2md (_is_leap Y) r4) as [m dd].
    rewrite !andb_true_iff, !Z.leb_le, Z.eqb_eq in Hmd.
    unfold _ymd2ord, _days_before_month, fields_ok, _days_in_month, MINYEAR, MAXYEAR.
    rewrite Hdby. split; [lia|].
    rewrite !andb_true_iff, !Z.leb_le. lia.
Qed.

Lemma fields_ok_iff (y m dd : Z) :
  fields_ok y m dd = true <->
  1 <= y <= 9999 /\ 1 <= m <= 12 /\ 1 <= dd <= _days_in_month y m.
Proof.
  unfold fields_ok, MINYEAR, MAXYEAR. rewrite !andb_true_iff, !Z.leb_le. lia.
Qed.

Lemma day_of_year_bounds (y m dd : Z) :
  1 <= m <= 12 -> 1 <= dd <= _days_in_month y m ->
  1 <= _days_before_month y m + dd <= 365 + (if _is_leap y then 1 else 0).
Proof.
  intros Hm. unfold _days_in_month, _days_before_month.
  destruct (_is_leap y); month_cases m; eval_index; eval_tests; lia.
Qed.

Lemma days_before_next_year (y : Z) :
  _days_before_year (y + 1)
  = _days_before_year y + 365 + (if _is_leap y then 1 else 0).
Proof.
  unfold _days_before_year, _is_leap.
  destruct (y mod 4 =? 0) eqn:E4; destruct (y mod 100 =? 0) eqn:E100;
    destruct (y mod 400 =? 0) eqn:E400; simpl;
    rewrite ?Z.eqb_eq, ?Z.eqb_neq in *; Z.div_mod_to_equations; lia.
Qed.

Lemma days_before_year_mono (y y' : Z) :
  y <= y' -> _days_before_year y <= _days_before_year y'.
Proof.
  intros H. destruct (Z.eq_dec y y') as [->|Hne]; [lia|].
  unfold _days_before_year. Z.div_mod_to_equations. lia.
Qed.

Lemma toordinal_bounds (d : date) :
  date_valid d -> 1 <= toordinal d <= _MAXORDINAL.
Proof.
  destruct d as [y m dd]. unfold date_valid, toordinal, _ymd2ord. simpl.
  rewrite fields_ok_iff. intros [Hy [Hm Hd]].
  pose proof (day_of_year_bounds y m dd Hm Hd) as Hdoy.
  pose proof (days_before_next_year y) as Hnext.
  pose proof (days_before_year_mono (y + 1) 10000 ltac:(lia)) as Hup.
  pose proof (days_before_year_mono 1 y ltac:(lia)) as Hlo.
  change (_days_before_year 10000) with 3652059 in Hup.
  change (_days_before_year 1) with 0 in Hlo.
  unfold _MAXORDINAL. lia.
Qed.

Lemma toordinal_below_max (d : date) :
  date_valid d -> d <> date_max -> toordinal d < _MAXORDINAL.
Proof.
  destruct d as [y m dd]. unfold date_valid, toordinal, _ymd2ord. simpl.
  rewrite fields_ok_iff. intros [Hy [Hm Hd]] Hne.
  pose proof (day_of_year_bounds y m dd Hm Hd) as Hdoy.
  pose proof (days_before_next_year y) as Hnext.
  unfold _MAXORDINAL.
  destruct (Z.eq_dec y 9999) as [->|Hy'].
  - change (_days_before_year 9999) with 3651694.
    assert (Hlast : ~ (m = 12 /\ dd = 31)) by (intros [-> ->]; apply Hne; reflexivity).
    clear Hne Hdoy Hnext. revert Hd. unfold _days_in_month, _days_before_month.
    change (_is_leap 9999) with false.
    month_cases m; eval_index; eval_tests; lia.
  - pose proof (days_before_year_mono (y + 1) 9999 ltac:(lia)) as Hup.
    change (_days_before_year 9999) with 3651694 in Hup.
    destruct (_is_leap y); lia.
Qed.

Lemma weekday_range (d : date) : 0 <= weekday d < 7.
Proof. unfold weekday. apply Z.mod_pos_bound. lia. Qed.

Lemma add_days_ok (d : date) (k : Z) :
  0 < toordinal d + k <= _MAXORDINAL ->
  exists m, add_days d k = Ok m /\ date_valid m /\ toordinal m = toordinal d + k.
Proof.
  intros H. unfold add_days.
  assert (E : (0 <? toordinal d + k) && (toordinal d + k <=? _MAXORDINAL) = true).
  { rewrite andb_true_iff, Z.ltb_lt, Z.leb_le. exact H. }
  rewrite E.
  pose proof (ord2ymd_ymd2ord (toordinal d + k) ltac:(lia)) as R.
  destruct (_ord2ymd (toordinal d + k)) as [[y m] dd]. destruct R as [R1 R2].
  exists (mkdate y m dd). split; [reflexivity|]. split; [exact R2 | exact R1].
Qed.

Lemma days_before_month_mono (y m m' : Z) :
  1 <= m -> m < m' -> m' <= 12 ->
  _days_before_month y m + _days_in_month y m <= _days_before_month y m'.
Proof.
  intros H1 H2 H3. unfold _days_before_month, _days_in_month.
  destruct (_is_leap y); month_cases m; month_cases m'; try lia;
    eval_index; eval_tests; lia.
Qed.

(** The order of the ordinals is the order [<] of the dates. *)
Lemma toordinal_lt_ltb (a b : date) :
  date_valid a -> date_valid b ->
  toordinal a < toordinal b -> date_ltb a b = true.
Proof.
  destruct a as [ya ma da], b as [yb mb db].
  unfold date_valid, toordinal, _ymd2ord, date_ltb. simpl.
  rewrite !fields_ok_iff. intros [Hya [Hma Hda]] [Hyb [Hmb Hdb]] Hlt.
  repeat first [rewrite orb_true_iff | rewrite andb_true_iff].
  rewrite !Z.ltb_lt, !Z.eqb_eq.
  destruct (Z.lt_trichotomy ya yb) as [Hy|[Hy|Hy]]; [left; exact Hy| |].
  - subst yb. right. split; [reflexivity|].
    destruct (Z.lt_trichotomy ma mb) as [Hm|[Hm|Hm]]; [left; exact Hm| |].
    + subst mb. right. split; [reflexivity|]. lia.
    + exfalso.
      pose proof (days_before_month_mono ya mb ma ltac:(lia) Hm ltac:(lia)). lia.
  - exfalso.
    pose proof (day_of_year_bounds yb mb db Hmb Hdb) as Hdoy.
    pose proof (day_of_year_bounds ya ma da Hma Hda) as Hdoy'.
    pose proof (days_before_next_year yb) as Hnext.
    pose proof (days_before_year_mono (yb + 1) ya ltac:(lia)) as Hup.
    lia.
Qed.

(** C4, as stated, fails on one date: 31 December 9999 is a Friday and
    the last date there is, and the weekend adjustment raises
    [OverflowError] on it. *)
Lemma adjust_for_weekend_overflows :
  date_valid date_max
  /\ weekday date_max = 4
  /\ AddressBook.adjust_for_weekend date_max
     = Raise (OverflowError "date value out of range").
Proof.
  repeat split.
Qed.

(** C4, amended: for every date [d] other than 31 December 9999, the
    weekend adjustment returns [d] when the weekday of [d] is below 4, and
    otherwise (Friday, Saturday, Sunday) returns the next Monday after
    [d]: a Monday, later than [d], with no Monday between them. *)
Theorem adjust_for_weekend_spec (d : Datetime.date)
        (Hv : date_valid d) (Hmax : d <> date_max) :
  (weekday d < 4 -> AddressBook.adjust_for_weekend d = Ok d)
  /\ (4 <= weekday d ->
      exists m,
        AddressBook.adjust_for_weekend d = Ok m
        /\ date_valid m
        /\ weekday m = 0
        /\ date_ltb d m = true
        /\ sub_days m d = 7 - weekday d
        /\ forall x, 0 < sub_days x d -> 0 < sub_days m x -> weekday x <> 0).
Proof.
  pose proof (weekday_range d) as Hw.
  pose proof (toordinal_bounds d Hv) as Hb.
  pose proof (toordinal_below_max d Hv Hmax) as Hlt.
  unfold AddressBook.adjust_for_weekend. split.
  - intros H. destruct (4 <=? weekday d) eqn:E; [|reflexivity].
    apply Z.leb_le in E. lia.
  - intros H. apply Z.leb_le in H as E. rewrite E.
    unfold AddressBook.find_next_weekday.
    assert (E0 : (0 - weekday d <=? 0) = true) by (apply Z.leb_le; lia).
    rewrite E0.
    assert (Hk : 0 < toordinal d + (0 - weekday d + 7) <= _MAXORDINAL).
    { unfold weekday, _MAXORDINAL in *. Z.div_mod_to_equations. lia. }
    destruct (add_days_ok d _ Hk) as [m [Hm [Hvm Hom]]].
    exists m. split; [exact Hm|]. split; [exact Hvm|].
    unfold sub_days.
    split; [|split; [|split]].
    + unfold weekday in *. rewrite Hom. Z.div_mod_to_equations. lia.
    + apply toordinal_lt_ltb; [exact Hv | exact Hvm | lia].
    + lia.
    + intros x Hx1 Hx2. unfold weekday in *. rewrite Hom in Hx2.
      Z.div_mod_to_equations. lia.
Qed.

Lemma adjust_for_weekend_spec_witness :
  date_valid saturday
  /\ saturday <> date_max
  /\ (4 <= weekday saturday ->
      exists m,
        AddressBook.adjust_for_weekend saturday = Ok m
        /\ date_valid m
        /\ weekday m = 0
        /\ date_ltb saturday m = true
        /\ sub_days m saturday = 7 - weekday saturday
        /\ forall x, 0 < sub_days x saturday -> 0 < sub_days m x ->
                     weekday x <> 0).
Proof.
  split; [reflexivity|]. split; [discriminate|].
  apply (adjust_for_weekend_spec saturday); [reflexivity | discriminate].
Defined.

End Calendar.


(** ** The validation of a birthday *)

Section Strptime.

Import Datetime.

(** What [strptime] does on some strings. *)
Example strptime_padded :
  strptime "08.06.1990" = Ok (mkdate 1990 6 8).
Proof. reflexivity. Qed.

Example strptime_space_padded :
  strptime " 8.06.1990" = Ok (mkdate 1990 6 8).
Proof. reflexivity. Qed.

Example strptime_backtracks :
  strptime "3.12.2001" = Ok (mkdate 2001 12 3).
Proof. reflexivity. Qed.

Example strptime_leap_day :
  strptime "29.02.2000" = Ok (mkdate 2000 2 29)
  /\ strptime "29.02.2001" = Raise (ValueError "day is out of range for month").
Proof. split; reflexivity. Qed.

Example strptime_year_zero :
  strptime "01.01.0000" = Raise (ValueError "year is out of range").
Proof. reflexivity. Qed.

Example strptime_short_year :
  strptime "08.06.90" = Raise (ValueError "time data does not match format").
Proof. reflexivity. Qed.

Example strptime_trailing :
  strptime "08.06.1990 " = Raise (ValueError "unconverted data remains").
Proof. reflexivity. Qed.

Lemma digit_val_range (a : ascii) (x : Z) : digit_val a = Some x -> 0 <= x <= 9.
Proof.
  unfold digit_val.
  destruct ((48 <=? PyStr.ord a) && (PyStr.ord a <=? 57)) eqn:E; [|discriminate].
  intros H. injection H as <-. apply andb_true_iff in E.
  rewrite !Z.leb_le in E. lia.
Qed.

Lemma digit_val_dot : digit_val "." = None.
Proof. reflexivity. Qed.

Lemma digit_val_space : digit_val " " = None.
Proof. reflexivity. Qed.

Lemma two_digits_some (p : Z -> Z -> bool) (s : string) (v : Z) (r : string) :
  two_digits p s = Some (v, r) <->
  exists a b x y,
    s = String a (String b r)
    /\ digit_val a = Some x /\ digit_val b = Some y
    /\ p x y = true /\ v = 10 * x + y.
Proof.
  unfold two_digits. split.
  - destruct s as [|a [|b r']]; try discriminate.
    destruct (digit_val a) as [x|] eqn:Ea; [|discriminate].
    destruct (digit_val b) as [y|] eqn:Eb; [|discriminate].
    destruct (p x y) eqn:Ep; [|discriminate].
    intros H. injection H as <- <-. exists a, b, x, y. auto.
  - intros [a [b [x [y [-> [Ea [Eb [Ep ->]]]]]]]].
    rewrite Ea, Eb, Ep. reflexivity.
Qed.

Lemma one_digit_some (s : string) (v : Z) (r : string) :
  one_digit s = Some (v, r) <->
  exists a, s = String a r /\ digit_val a = Some v /\ 1 <= v.
Proof.
  unfold one_digit. split.
  - destruct s as [|a r']; [discriminate|].
    destruct (digit_val a) as [x|] eqn:Ea; [|discriminate].
    destruct (1 <=? x) eqn:E1; [|discriminate].
    intros H. injection H as <- <-. apply Z.leb_le in E1. exists a. auto.
  - intros [a [-> [Ea H1]]]. rewrite Ea.
    apply Z.leb_le in H1. rewrite H1. reflexivity.
Qed.

Lemma space_digit_some (s : string) (v : Z) (r : string) :
  space_digit s = Some (v, r) <->
  exists a, s = String " " (String a r) /\ digit_val a = Some v /\ 1 <= v.
Proof.
  unfold space_digit. split.
  - destruct s as [|c r']; [discriminate|].
    destruct (Ascii.eqb_spec c " ") as [->|]; [|discriminate].
    intros H. apply one_digit_some in H. destruct H as [a [-> H]].
    exists a. auto.
  - intros [a [-> H]]. rewrite Ascii.eqb_refl. apply one_digit_some. exists a. auto.
Qed.

Lemma Y_group_some (s : string) (v : Z) (r : string) :
  Y_group s = Some (v, r) <-> exists Y, s = Y ++ r /\ four_digit_text Y v.
Proof.
  unfold Y_group, four_digit_text. split.
  - destruct s as [|a [|b [|c [|e r']]]]; try discriminate.
    destruct (digit_val a) as [x|] eqn:Ea; [|discriminate].
    destruct (digit_val b) as [y|] eqn:Eb; [|discriminate].
    destruct (digit_val c) as [z|] eqn:Ec; [|discriminate].
    destruct (digit_val e) as [w|] eqn:Ee; [|discriminate].
    intros H. injection H as <- <-.
    exists (String a (String b (String c (String e EmptyString)))).
    split; [reflexivity|]. exists a, b, c, e, x, y, z, w. auto 10.
  - intros (Y & -> & a & b & c & e & x & y & z & w & -> & Ea & Eb & Ec & Ee & ->).
    simpl. rewrite Ea, Eb, Ec, Ee. reflexivity.
Qed.

Lemma dot_some (s r : string) : dot s = Some r <-> s = String "." r.
Proof.
  unfold dot. split.
  - destruct s as [|c r']; [discriminate|].
    destruct (Ascii.eqb_spec c ".") as [->|]; [|discriminate].
    intros H. injection H as <-. reflexivity.
  - intros ->. reflexivity.
Qed.

(** A match of a two-digit alternative gives a two-digit text, with the
    bounds that the test of the alternative implies. *)
Ltac from_two_digits H :=
  let a := fresh "a" in
  let b := fresh "b" in
  let x := fresh "x" in
  let y := fresh "y" in
  let Ea := fresh "Ea" in
  let Eb := fresh "Eb" in
  let Ep := fresh "Ep" in
  apply two_digits_some in H;
  destruct H as (a & b & x & y & -> & Ea & Eb & Ep & ->);
  exists (String a (String b EmptyString)); split; [reflexivity|];
  split; [left; exists a, b, x, y; auto|];
  apply digit_val_range in Ea, Eb;
  rewrite andb_true_iff in Ep; rewrite ?Z.eqb_eq, ?Z.leb_le in Ep; lia.

(** The two-digit alternative chosen by [pick] matches the text [a b]. *)
Ltac to_two_digits pick a b x y :=
  eexists; split; [pick|]; apply two_digits_some;
  exists a, b, x, y; repeat split; auto;
  rewrite andb_true_iff, ?Z.eqb_eq, ?Z.leb_le; lia.

Lemma d_group_matches (s : string) (v : Z) (r : string) :
  group_matches d_group s v r <->
  exists D, s = D ++ r /\ day_text D v /\ 1 <= v <= 31.
Proof.
  unfold group_matches, d_group, day_text, two_digit_text, one_digit_text. split.
  - intros [alt [Hin H]]. simpl in Hin.
    destruct Hin as [<-|[<-|[<-|[<-|[<-|[]]]]]];
      [from_two_digits H | from_two_digits H | from_two_digits H | |].
    + apply one_digit_some in H. destruct H as [a [-> [Ea H1]]].
      exists (String a EmptyString). split; [reflexivity|].
      split; [right; left; exists a; auto|].
      apply digit_val_range in Ea. lia.
    + apply space_digit_some in H. destruct H as [a [-> [Ea H1]]].
      exists (String " " (String a EmptyString)). split; [reflexivity|].
      split; [right; right; exists (String a EmptyString);
              split; [reflexivity | exists a; auto]|].
      apply digit_val_range in Ea. lia.
  - intros [D [-> [[H|[H|H]] Hv]]].
    + destruct H as (a & b & x & y & -> & Ea & Eb & ->).
      pose proof (digit_val_range _ _ Ea). pose proof (digit_val_range _ _ Eb).
      assert (C : x = 3 \/ (1 <= x <= 2) \/ x = 0) by lia.
      destruct C as [C|[C|C]].
      * to_two_digits ltac:(left; reflexivity) a b x y.
      * to_two_digits ltac:(right; left; reflexivity) a b x y.
      * to_two_digits ltac:(right; right; left; reflexivity) a b x y.
    + destruct H as [a [-> Ea]].
      eexists. split; [right; right; right; left; reflexivity|].
      apply one_digit_some. exists a. repeat split; auto. lia.
    + destruct H as [T [-> [a [-> Ea]]]].
      eexists. split; [right; right; right; right; left; reflexivity|].
      apply space_digit_some. exists a. repeat split; auto. lia.
Qed.

Lemma m_group_matches (s : string) (v : Z) (r : string) :
  group_matches m_group s v r <->
  exists T, s = T ++ r /\ month_text T v /\ 1 <= v <= 12.
Proof.
  unfold group_matches, m_group, month_text, two_digit_text, one_digit_text. split.
  - intros [alt [Hin H]]. simpl in Hin.
    destruct Hin as [<-|[<-|[<-|[]]]];
      [from_two_digits H | from_two_digits H |].
    apply one_digit_some in H. destruct H as [a [-> [Ea H1]]].
    exists (String a EmptyString). split; [reflexivity|].
    split; [right; exists a; auto|].
    apply digit_val_range in Ea. lia.
  - intros [D [-> [[H|H] Hv]]].
    + destruct H as (a & b & x & y & -> & Ea & Eb & ->).
      pose proof (digit_val_range _ _ Ea). pose proof (digit_val_range _ _ Eb).
      assert (C : x = 1 \/ x = 0) by lia.
      destruct C as [C|C].
      * to_two_digits ltac:(left; reflexivity) a b x y.
      * to_two_digits ltac:(right; left; reflexivity) a b x y.
    + destruct H as [a [-> Ea]].
      eexists. split; [right; right; left; reflexivity|].
      apply one_digit_some. exists a. repeat split; auto. lia.
Qed.

Lemma alt_then_some {R} (g : list alternative) (s : string)
      (k : Z -> string -> option R) (x : R) :
  alt_then g s k = Some x ->
  exists v r, group_matches g s v r /\ k v r = Some x.
Proof.
  induction g as [|a g IH]; simpl; [discriminate|].
  assert (Hrest : alt_then g s k = Some x ->
                  exists v r, group_matches (a :: g) s v r /\ k v r = Some x).
  { intros H. destruct (IH H) as (v & r & (a' & Hin & Ha') & Hk).
    exists v, r. split; [|exact Hk]. exists a'. split; [right; exact Hin | exact Ha']. }
  destruct (a s) as [[v r]|] eqn:Ea; [|exact Hrest].
  destruct (k v r) as [x'|] eqn:Ek; [|exact Hrest].
  intros H. injection H as <-. exists v, r. split; [|exact Ek].
  exists a. split; [left; reflexivity | exact Ea].
Qed.

Lemma alt_then_none {R} (g : list alternative) (s : string)
      (k : Z -> string -> option R) :
  alt_then g s k = None ->
  forall v r, group_matches g s v r -> k v r = None.
Proof.
  induction g as [|a g IH]; simpl.
  - intros _ v r (a & [] & _).
  - intros H v r (a' & [<-|Hin] & Ha').
    + rewrite Ha' in H. destruct (k v r); [discriminate | reflexivity].
    + apply IH.
      * destruct (a s) as [[v0 r0]|]; [destruct (k v0 r0); [discriminate|]|]; exact H.
      * exists a'. split; assumption.
Qed.

(** When every alternative after which the rest matches leads to the
    same result, that result is the one returned. *)
Lemma alt_then_unique {R} (g : list alternative) (s : string)
      (k : Z -> string -> option R) (v : Z) (r : string) (x : R) :
  group_matches g s v r -> k v r = Some x ->
  (forall v' r' x', group_matches g s v' r' -> k v' r' = Some x' -> x' = x) ->
  alt_then g s k = Some x.
Proof.
  intros Hm Hk Hu. destruct (alt_then g s k) as [x'|] eqn:E.
  - apply alt_then_some in E. destruct E as (v' & r' & Hm' & Hk').
    f_equal. exact (Hu v' r' x' Hm' Hk').
  - pose proof (alt_then_none g s k E v r Hm) as Hn. congruence.
Qed.

Lemma day_text_unique (D D' : string) (v v' : Z) (r r' : string) :
  day_text D v -> day_text D' v' ->
  D ++ String "." r = D' ++ String "." r' -> v = v' /\ r = r'.
Proof.
  pose proof digit_val_dot as Hdot. pose proof digit_val_space as Hsp.
  unfold day_text, two_digit_text, one_digit_text.
  intros [H|[H|H]] [H'|[H'|H']];
    repeat match goal with
           | H : exists _, _ |- _ => destruct H
           | H : _ /\ _ |- _ => destruct H
           end; subst; cbn [append];
    intros E; injection E; intros; subst; split; congruence.
Qed.

Lemma month_text_unique (T T' : string) (v v' : Z) (r r' : string) :
  month_text T v -> month_text T' v' ->
  T ++ String "." r = T' ++ String "." r' -> v = v' /\ r = r'.
Proof.
  pose proof digit_val_dot as Hdot.
  unfold month_text, two_digit_text, one_digit_text.
  intros [H|H] [H'|H'];
    repeat match goal with
           | H : exists _, _ |- _ => destruct H
           | H : _ /\ _ |- _ => destruct H
           end; subst; cbn [append];
    intros E; injection E; intros; subst; split; congruence.
Qed.

Lemma regex_match_shape (s : string) (d m y : Z) (rest : string) :
  regex_match s = Some (d, m, y, rest) <-> regex_shape s d m y rest.
Proof.
  unfold regex_match, regex_shape. split.
  - intros H. apply alt_then_some in H. destruct H as (v & r1 & Hd & H).
    destruct (dot r1) as [r2|] eqn:E1; [|discriminate].
    apply alt_then_some in H. destruct H as (w & r3 & Hm & H).
    destruct (dot r3) as [r4|] eqn:E2; [|discriminate].
    destruct (Y_group r4) as [[y' r5]|] eqn:E3; [|discriminate].
    injection H as -> -> -> ->.
    apply dot_some in E1, E2. apply Y_group_some in E3. subst r1 r3.
    apply d_group_matches in Hd. apply m_group_matches in Hm.
    destruct Hd as (D & -> & HD & HdR). destruct Hm as (T & -> & HT & HmR).
    destruct E3 as (Y & -> & HY).
    exists D, T, Y. auto 10.
  - intros (D & T & Y & -> & HD & HdR & HT & HmR & HY).
    set (r4 := Y ++ rest). set (r2 := T ++ String "." r4).
    assert (EY : Y_group r4 = Some (y, rest)).
    { apply Y_group_some. exists Y. split; [reflexivity | exact HY]. }
    assert (Hm : group_matches m_group r2 m (String "." r4)).
    { apply m_group_matches. exists T. auto. }
    assert (Hd : group_matches d_group (D ++ String "." r2) d (String "." r2)).
    { apply d_group_matches. exists D. auto. }
    assert (Inner : forall d0 : Z,
      alt_then m_group r2 (fun m0 r3 =>
        match dot r3 with
        | Some r4 =>
            match Y_group r4 with
            | Some (y0, r5) => Some (d0, m0, y0, r5)
            | None => None
            end
        | None => None
        end) = Some (d0, m, y, rest)).
    { intros d0. apply (alt_then_unique _ _ _ m (String "." r4)); [exact Hm| |].
      - simpl. rewrite EY. reflexivity.
      - intros v' r' x' Hm' Hk'.
        destruct (dot r') as [q|] eqn:Eq; [|discriminate].
        apply dot_some in Eq. subst r'.
        apply m_group_matches in Hm'. destruct Hm' as (T' & ET & HT' & _).
        destruct (month_text_unique T T' m v' r4 q HT HT' ET) as [<- <-].
        rewrite EY in Hk'. injection Hk' as <-. reflexivity. }
    apply (alt_then_unique _ _ _ d (String "." r2)); [exact Hd| |].
    + simpl. apply Inner.
    + intros v' r' x' Hd' Hk'.
      destruct (dot r') as [q|] eqn:Eq; [|discriminate].
      apply dot_some in Eq. subst r'.
      apply d_group_matches in Hd'. destruct Hd' as (D' & ED & HD' & _).
      destruct (day_text_unique D D' d v' r2 q HD HD' ED) as [<- <-].
      rewrite Inner in Hk'. injection Hk' as <-. reflexivity.
Qed.

Lemma append_empty (s : string) : s ++ "" = s.
Proof.
  induction s as [|c r IH]; simpl; [reflexivity|]. rewrite IH. reflexivity.
Qed.

Lemma days_in_month_le_31 (y m : Z) : 1 <= m <= 12 -> _days_in_month y m <= 31.
Proof.
  intros Hm. unfold _days_in_month.
  destruct (_is_leap y); month_cases m; eval_index; eval_tests; lia.
Qed.

Lemma date_new_ok (y m d : Z) :
  fields_ok y m d = true -> date_new y m d = Ok (mkdate y m d).
Proof.
  intros H. apply fields_ok_iff in H. unfold date_new, MINYEAR, MAXYEAR.
  destruct H as [Hy [Hm Hd]].
  assert (E1 : (1 <=? y) && (y <=? 9999) = true)
    by (rewrite andb_true_iff, !Z.leb_le; lia).
  assert (E2 : (1 <=? m) && (m <=? 12) = true)
    by (rewrite andb_true_iff, !Z.leb_le; lia).
  assert (E3 : (1 <=? d) && (d <=? _days_in_month y m) = true)
    by (rewrite andb_true_iff, !Z.leb_le; lia).
  rewrite E1, E2, E3. reflexivity.
Qed.

Lemma date_new_raises (y m d : Z) :
  fields_ok y m d = false -> exists msg, date_new y m d = Raise (ValueError msg).
Proof.
  unfold fields_ok, date_new. intros H.
  destruct ((MINYEAR <=? y) && (y <=? MAXYEAR)); simpl; [|eexists; reflexivity].
  destruct ((1 <=? m) && (m <=? 12)) eqn:Em; simpl.
  - apply andb_true_iff in Em. destruct Em as [Em1 Em2].
    rewrite Em1, Em2 in H. simpl in H.
    rewrite H. simpl. eexists; reflexivity.
  - eexists; reflexivity.
Qed.

(** A string with the texts of a real date is what the regular
    expression matches up to the end of the string. *)
Lemma birthday_text_shape (s : string) (d m y : Z) :
  fields_ok y m d = true ->
  (birthday_text s d m y <-> regex_shape s d m y "").
Proof.
  intros H. apply fields_ok_iff in H. destruct H as [Hy [Hm Hd]].
  pose proof (days_in_month_le_31 y m Hm) as H31.
  unfold birthday_text, regex_shape. split.
  - intros (D & T & Y & -> & HD & HT & HY). exists D, T, Y.
    rewrite append_empty. split; [reflexivity|].
    repeat split; try assumption; lia.
  - intros (D & T & Y & -> & HD & _ & HT & _ & HY). exists D, T, Y.
    rewrite append_empty. split; [reflexivity|]. auto.
Qed.

Lemma strptime_real_date (s : string) (d m y : Z) :
  birthday_text s d m y -> fields_ok y m d = true ->
  strptime s = Ok (mkdate y m d).
Proof.
  intros Ht Hf. apply (birthday_text_shape s d m y Hf) in Ht.
  apply regex_match_shape in Ht. unfold strptime. rewrite Ht. simpl.
  apply date_new_ok, Hf.
Qed.

Lemma strptime_other (s : string) :
  (forall d m y, birthday_text s d m y -> fields_ok y m d = false) ->
  exists msg, strptime s = Raise (ValueError msg).
Proof.
  intros H. unfold strptime.
  destruct (regex_match s) as [[[[d m] y] rest]|] eqn:E; [|eexists; reflexivity].
  destruct rest as [|c rest]; simpl; [|eexists; reflexivity].
  apply date_new_raises.
  destruct (fields_ok y m d) eqn:Ef; [|reflexivity].
  apply regex_match_shape in E. apply (birthday_text_shape s d m y Ef) in E.
  rewrite (H d m y E) in Ef. discriminate.
Qed.

(** The characters of a class are decimal digits, and below code point
    256 a decimal digit is a character of the class [[0-9]]. *)
Lemma class_digit_val (lo hi : Z) (c : ascii) (v : Z) :
  0 <= lo -> hi <= 9 -> class_digit lo hi c v -> digit_val c = Some v.
Proof.
  intros Hlo Hhi [E Hv]. unfold digit_val. rewrite E.
  replace ((48 <=? 48 + v) && (48 + v <=? 57)) with true
    by (symmetry; apply andb_true_iff; split; apply Z.leb_le; lia).
  f_equal. lia.
Qed.

Lemma digit_val_class (c : ascii) (v : Z) :
  digit_val c = Some v -> class_digit 0 9 c v.
Proof.
  unfold digit_val, class_digit.
  destruct ((48 <=? PyStr.ord c) && (PyStr.ord c <=? 57)) eqn:E; [|discriminate].
  apply andb_true_iff in E. destruct E as [E1 E2].
  apply Z.leb_le in E1, E2. intros H. injection H as <-. lia.
Qed.

Lemma class_digit_range (lo hi lo' hi' : Z) (c : ascii) (v : Z) :
  class_digit lo hi c v -> lo' <= v <= hi' -> class_digit lo' hi' c v.
Proof. intros [E _] H. split; assumption. Qed.

Lemma two_chars_text (p q : ascii -> Z -> Prop) (T : string) (v : Z) :
  (forall c x, p c x -> digit_val c = Some x) ->
  (forall c x, q c x -> digit_val c = Some x) ->
  two_chars p q T v -> two_digit_text T v.
Proof.
  intros Hp Hq (a & b & x & y & E & Ha & Hb & Ev).
  exists a, b, x, y. auto.
Qed.

Lemma one_char_text (T : string) (v : Z) : one_char T v -> one_digit_text T v.
Proof.
  intros (a & E & Ha). exists a. split; [exact E|].
  apply (class_digit_val 1 9); [lia | lia | exact Ha].
Qed.

Lemma one_digit_text_char (T : string) (v : Z) :
  one_digit_text T v -> 1 <= v -> one_char T v.
Proof.
  intros (a & E & Ha) Hv. exists a. split; [exact E|].
  apply digit_val_class in Ha.
  apply (class_digit_range 0 9); [exact Ha|]. destruct Ha as [_ Ha]. lia.
Qed.

Ltac by_class :=
  intros ? ? ?; first [ eassumption
                      | eapply class_digit_val; [| |eassumption]; lia ].

(** A text that the expression matches is a day, a month and a year in
    digits. *)
Lemma strptime_text_birthday_text (s : string) (d m y : Z) :
  strptime_text s d m y -> birthday_text s d m y.
Proof.
  intros (D & T & Y & E & HD & HT & HY). exists D, T, Y.
  split; [exact E|]. split; [|split; [|exact HY]].
  - destruct HD as [H|[H|[H|[H|(T' & E' & H)]]]].
    + left. revert H. apply two_chars_text; by_class.
    + left. revert H. apply two_chars_text; by_class.
    + left. revert H. apply two_chars_text; by_class.
    + right. left. apply one_char_text, H.
    + right. right. exists T'. split; [exact E'|]. apply one_char_text, H.
  - destruct HT as [H|[H|H]].
    + left. revert H. apply two_chars_text; by_class.
    + left. revert H. apply two_chars_text; by_class.
    + right. apply one_char_text, H.
Qed.

(** Conversely, a day from 1 to 31 and a month from 1 to 12 in digits
    are written as the expression has them. *)
Lemma birthday_text_strptime_text (s : string) (d m y : Z) :
  birthday_text s d m y -> 1 <= d <= 31 -> 1 <= m <= 12 ->
  strptime_text s d m y.
Proof.
  intros (D & T & Y & E & HD & HT & HY) Hd Hm. exists D, T, Y.
  split; [exact E|]. split; [|split; [|exact HY]].
  - destruct HD as [(a & b & x & z & E' & Ha & Hb & Ev)
                   |[H|(T' & E' & H)]].
    + pose proof (digit_val_class _ _ Ha) as Ca.
      pose proof (digit_val_class _ _ Hb) as Cb.
      assert (Hx : x = 3 \/ 1 <= x <= 2 \/ x = 0)
        by (destruct Ca as [_ Ca], Cb as [_ Cb]; lia).
      destruct Hx as [Hx|[Hx|Hx]].
      * left. exists a, b, x, z. split; [exact E'|].
        split; [apply (class_digit_range 0 9); [exact Ca | lia]|].
        split; [apply (class_digit_range 0 9); [exact Cb|];
                destruct Cb as [_ Cb]; lia | exact Ev].
      * right. left. exists a, b, x, z. split; [exact E'|].
        split; [apply (class_digit_range 0 9); [exact Ca | lia]|].
        split; [exact Hb | exact Ev].
      * right. right. left. exists a, b, x, z. split; [exact E'|].
        split; [apply (class_digit_range 0 9); [exact Ca | lia]|].
        split; [apply (class_digit_range 0 9); [exact Cb|];
                destruct Cb as [_ Cb]; lia | exact Ev].
    + right. right. right. left. apply one_digit_text_char; [exact H | lia].
    + right. right. right. right. exists T'. split; [exact E'|].
      apply one_digit_text_char; [exact H | lia].
  - destruct HT as [(a & b & x & z & E' & Ha & Hb & Ev)|H].
    + pose proof (digit_val_class _ _ Ha) as Ca.
      pose proof (digit_val_class _ _ Hb) as Cb.
      assert (Hx : x = 1 \/ x = 0)
        by (destruct Ca as [_ Ca], Cb as [_ Cb]; lia).
      destruct Hx as [Hx|Hx].
      * left. exists a, b, x, z. split; [exact E'|].
        split; [apply (class_digit_range 0 9); [exact Ca | lia]|].
        split; [apply (class_digit_range 0 9); [exact Cb|];
                destruct Cb as [_ Cb]; lia | exact Ev].
      * right. left. exists a, b, x, z. split; [exact E'|].
        split; [apply (class_digit_range 0 9); [exact Ca | lia]|].
        split; [apply (class_digit_range 0 9); [exact Cb|];
                destruct Cb as [_ Cb]; lia | exact Ev].
    + right. right. apply one_digit_text_char; [exact H | lia].
Qed.

Lemma real_date_strptime_text (s : string) (d m y : Z) :
  birthday_text s d m y -> fields_ok y m d = true -> strptime_text s d m y.
Proof.
  intros Ht Hf. apply fields_ok_iff in Hf. destruct Hf as [_ [Hm Hd]].
  pose proof (days_in_month_le_31 y m Hm) as H31.
  apply birthday_text_strptime_text; [exact Ht | lia | exact Hm].
Qed.

(** The validation of a birthday in terms of the texts of the
    expression. *)
Lemma birthday_new_reads (text : string) (d m y : Z) :
  strptime_text text d m y -> fields_ok y m d = true ->
  Birthday.new text = Ok (Field.mk text).
Proof.
  intros Ht Hf. apply strptime_text_birthday_text in Ht.
  unfold Birthday.new. rewrite (strptime_real_date text d m y Ht Hf).
  reflexivity.
Qed.

Lemma birthday_new_other (text : string) :
  (forall d m y, strptime_text text d m y -> fields_ok y m d = false) ->
  Birthday.new text = Raise (ValueError "Invalid date format").
Proof.
  intros H.
  assert (H' : forall d m y,
             birthday_text text d m y -> fields_ok y m d = false).
  { intros d m y Ht. destruct (fields_ok y m d) eqn:Ef; [|reflexivity].
    rewrite <- Ef. apply H, real_date_strptime_text; assumption. }
  destruct (strptime_other text H') as [msg E].
  unfold Birthday.new. rewrite E. reflexivity.
Qed.

Lemma dd_mm_yyyy_strptime_text (s : string) (d m y : Z) :
  dd_mm_yyyy s d m y -> fields_ok y m d = true -> strptime_text s d m y.
Proof.
  intros (D & T & Y & E & HD & HT & HY) Hf.
  apply real_date_strptime_text; [|exact Hf].
  exists D, T, Y. split; [exact E|].
  split; [left; revert HD; apply two_chars_text; by_class|].
  split; [left; revert HT; apply two_chars_text; by_class|].
  destruct HY as (a & b & c & e & x & y' & z & w & E' & Ha & Hb & Hc & He & Ev).
  exists a, b, c, e, x, y', z, w.
  repeat split; try assumption;
    (eapply class_digit_val; [| |eassumption]; lia).
Qed.

(** Two of the texts of the expression: a day by [[1-2]\d] with a month
    by [0[1-9]], and a day by a space and [[1-9]] with a month by
    [[1-9]]. *)
Example strptime_text_forms :
  strptime_text "18.06.1990" 18 6 1990
  /\ strptime_text " 8.6.1990" 8 6 1990.
Proof.
  assert (Y : year_pattern "1990" 1990).
  { exists "1"%char, "9"%char, "9"%char, "0"%char, 1, 9, 9, 0.
    repeat split; reflexivity. }
  split.
  - exists "18", "06", "1990". split; [reflexivity|].
    split; [|split; [|exact Y]].
    + right. left. exists "1"%char, "8"%char, 1, 8.
      repeat split; first [reflexivity | lia].
    + right. left. exists "0"%char, "6"%char, 0, 6.
      repeat split; first [reflexivity | lia].
  - exists " 8", "6", "1990". split; [reflexivity|].
    split; [|split; [|exact Y]].
    + do 4 right. exists "8". split; [reflexivity|].
      exists "8"%char. repeat split; first [reflexivity | lia].
    + do 2 right. exists "6"%char. repeat split; first [reflexivity | lia].
Qed.

(** What the validation of a birthday does on some strings. *)
Example birthday_new_accepts :
  Birthday.new "29.02.2000" = Ok (Field.mk "29.02.2000")
  /\ Birthday.new " 8.6.1990" = Ok (Field.mk " 8.6.1990").
Proof. split; reflexivity. Qed.

Example birthday_new_refuses :
  Birthday.new "29.02.2001" = Raise (ValueError "Invalid date format")
  /\ Birthday.new "1990-06-08" = Raise (ValueError "Invalid date format")
  /\ Birthday.new "" = Raise (ValueError "Invalid date format").
Proof. repeat split; reflexivity. Qed.

(** C7, as stated, fails in its second half: "8.6.1990" is not of the
    form [dd.mm.yyyy], and the validation accepts it. *)
Lemma birthday_accepts_short_form :
  Birthday.new "8.6.1990" = Ok (Field.mk "8.6.1990")
  /\ ~ exists d m y, dd_mm_yyyy "8.6.1990" d m y.
Proof.
  split; [reflexivity|].
  intros (d & m & y & D & T & Y & E & HD & _).
  destruct HD as (a & b & x & z & -> & _). cbn [append] in E.
  injection E as _ _ E. destruct T as [|c T]; cbn [append] in E; discriminate E.
Qed.

(** C7, amended.  The validation accepts exactly the strings that the
    expression of ["%d.%m.%Y"] matches from the first character to the
    last and that denote a real date of the years 1 to 9999: a day
    written as "3" and "0" or "1", as "1" or "2" and a decimal digit, as
    "0" and one of "1" to "9", as one of "1" to "9", or as a space and one
    of "1" to "9"; a dot; a month written as "1" and one of "0" to "2", as
    "0" and one of "1" to "9", or as one of "1" to "9"; a dot; and a year
    of four decimal digits.  For such a string the value stored is the
    string itself, from which [strptime] reads the same day, month and
    year again; the strings of the form [dd.mm.yyyy] that denote a real
    date are among them.  Every other string fails with the [ValueError]
    "Invalid date format".  A decimal digit is what [\d] matches; the
    statement ranges over the strings of this development, those over the
    code points 0..255, where these are the characters "0" to "9". *)
Theorem birthday_validation (s : string) :
  (forall d m y,
      strptime_text s d m y -> fields_ok y m d = true ->
      exists b,
        Birthday.new s = Ok b
        /\ Field.value b = s
        /\ strptime (Field.value b) = Ok (mkdate y m d))
  /\ (forall d m y,
        dd_mm_yyyy s d m y -> fields_ok y m d = true ->
        Birthday.new s = Ok (Field.mk s))
  /\ ((forall d m y, strptime_text s d m y -> fields_ok y m d = false) ->
      Birthday.new s = Raise (ValueError "Invalid date format")).
Proof.
  split; [|split].
  - intros d m y Ht Hf. apply strptime_text_birthday_text in Ht.
    pose proof (strptime_real_date s d m y Ht Hf) as E.
    exists (Field.mk s). unfold Birthday.new. rewrite E. simpl. auto.
  - intros d m y Ht Hf.
    apply (birthday_new_reads s d m y); [|exact Hf].
    apply dd_mm_yyyy_strptime_text; assumption.
  - apply birthday_new_other.
Qed.

End Strptime.

(** ** The schedule returns *)

Section Returns.

Import Datetime.

(** A day of a month other than 29 February is a day of that month in
    every year. *)
Lemma fields_ok_other_year (y y' m d : Z) :
  fields_ok y m d = true -> 1 <= y' <= 9999 -> ~ (m = 2 /\ d = 29) ->
  fields_ok y' m d = true.
Proof.
  rewrite !fields_ok_iff. unfold _days_in_month. intros [Hy [Hm Hd]] Hy' Hne.
  split; [exact Hy'|]. split; [exact Hm|].
  destruct (Z.eq_dec m 2) as [->|Hm2].
  - revert Hd. destruct (_is_leap y), (_is_leap y'); eval_tests; eval_index; lia.
  - assert (E : (m =? 2) = false) by (apply Z.eqb_neq; exact Hm2).
    rewrite E in *. exact Hd.
Qed.

Lemma ltb_false_toordinal (a b : date) :
  date_valid a -> date_valid b ->
  date_ltb a b = false -> toordinal b <= toordinal a.
Proof.
  intros Ha Hb H. destruct (Z.le_gt_cases (toordinal b) (toordinal a)) as [L|G];
    [exact L|].
  rewrite (toordinal_lt_ltb a b Ha Hb) in H; [discriminate | lia].
Qed.

Lemma adjust_for_weekend_returns (c : date) :
  date_valid c -> c <> date_max ->
  exists adj, AddressBook.adjust_for_weekend c = Ok adj
              /\ date_valid adj /\ toordinal c <= toordinal adj.
Proof.
  intros Hv Hne. pose proof (weekday_range c) as Hw.
  pose proof (toordinal_below_max c Hv Hne) as Hlt.
  pose proof (toordinal_bounds c Hv) as Hb.
  unfold AddressBook.adjust_for_weekend.
  destruct (4 <=? weekday c) eqn:E.
  - apply Z.leb_le in E. unfold AddressBook.find_next_weekday.
    assert (E0 : (0 - weekday c <=? 0) = true) by (apply Z.leb_le; lia).
    rewrite E0.
    assert (Hk : 0 < toordinal c + (0 - weekday c + 7) <= _MAXORDINAL).
    { unfold weekday, _MAXORDINAL in *. Z.div_mod_to_equations. lia. }
    destruct (add_days_ok c _ Hk) as [m [Hm [Hvm Hom]]].
    exists m. split; [exact Hm|]. split; [exact Hvm | lia].
  - exists c. split; [reflexivity|]. split; [exact Hv | lia].
Qed.

(** For a stored birthday other than 29 February, and a day [today]
    before the year 9999, the loop body of the schedule returns a date,
    and the date is not before [today]. *)
Lemma adjusted_birthday_returns (value : string) (today : date) (d m y : Z) :
  birthday_text value d m y -> fields_ok y m d = true ->
  ~ (m = 2 /\ d = 29) ->
  date_valid today -> year today < 9999 ->
  exists adj,
    AddressBook.adjusted_birthday value today = Ok adj
    /\ date_valid adj /\ 0 <= sub_days adj today.
Proof.
  intros Ht Hf Hne Hv Hy.
  unfold AddressBook.adjusted_birthday.
  rewrite (strptime_real_date value d m y Ht Hf). simpl.
  assert (Hty : 1 <= year today <= 9999).
  { unfold date_valid in Hv. apply fields_ok_iff in Hv. lia. }
  unfold replace_year at 1. simpl.
  rewrite (date_new_ok (year today) m d)
    by (apply (fields_ok_other_year y); [exact Hf | exact Hty | exact Hne]).
  simpl.
  assert (Hc : date_valid (mkdate (year today) m d))
    by (apply (fields_ok_other_year y); [exact Hf | exact Hty | exact Hne]).
  destruct (date_ltb (mkdate (year today) m d) today) eqn:El.
  - unfold replace_year. simpl.
    assert (Hc' : date_valid (mkdate (year today + 1) m d))
      by (apply (fields_ok_other_year y); [exact Hf | simpl; lia | exact Hne]).
    rewrite (date_new_ok (year today + 1) m d) by exact Hc'. simpl.
    assert (Hnm : mkdate (year today + 1) m d <> date_max).
    { intros E. injection E as E1 E2 E3. subst m d.
      unfold date_ltb in El. simpl in El.
      unfold date_valid in Hv. apply fields_ok_iff in Hv.
      destruct Hv as [_ [Hm Hd]].
      pose proof (days_in_month_le_31 (year today) (month today) Hm).
      repeat first [rewrite orb_true_iff in El | rewrite andb_true_iff in El].
      rewrite !Z.ltb_lt, !Z.eqb_eq in El. lia. }
    destruct (adjust_for_weekend_returns _ Hc' Hnm) as (adj & Ea & Hva & Hle).
    exists adj. split; [exact Ea|]. split; [exact Hva|].
    assert (Hnl : date_ltb (mkdate (year today + 1) m d) today = false).
    { unfold date_ltb. simpl.
      apply not_true_is_false.
      repeat first [rewrite orb_true_iff | rewrite andb_true_iff].
      rewrite !Z.ltb_lt, !Z.eqb_eq. lia. }
    pose proof (ltb_false_toordinal _ _ Hc' Hv Hnl). unfold sub_days. lia.
  - assert (Hnm : mkdate (year today) m d <> date_max).
    { intros E. injection E as E1 E2 E3. lia. }
    destruct (adjust_for_weekend_returns _ Hc Hnm) as (adj & Ea & Hva & Hle).
    exists adj. split; [exact Ea|]. split; [exact Hva|].
    pose proof (ltb_false_toordinal _ _ Hc Hv El). unfold sub_days. lia.
Qed.

Lemma upcoming_loop_returns (records : list Record.t) (days : Z) (today : date)
      (acc : list AddressBook.upcoming) :
  Forall plain_birthday records -> date_valid today -> year today < 9999 ->
  exists l, AddressBook.upcoming_loop records days today acc = Ok l.
Proof.
  intros Hall Hv Hy. revert acc.
  induction Hall as [|r rest Hr _ IH]; intros acc; simpl.
  - exists acc. reflexivity.
  - destruct (Record.birthday r) as [b|] eqn:Eb; [|apply IH].
    destruct (Hr b Eb) as (d & m & y & Ht & Hf & Hne).
    destruct (adjusted_birthday_returns _ today d m y Ht Hf Hne Hv Hy)
      as (adj & Ea & _). rewrite Ea. simpl.
    destruct ((0 <=? sub_days adj today) && (sub_days adj today <=? days));
      apply IH.
Qed.

(** X9: on a book without a birthday on 29 February, and before the
    year 9999, the schedule returns a list. *)
Lemma get_upcoming_birthdays_returns (data : AddressBook.t) (days : Z)
      (today : date) :
  Forall plain_birthday (AddressBook.values data) ->
  date_valid today -> year today < 9999 ->
  exists l, AddressBook.get_upcoming_birthdays data days today = Ok l.
Proof.
  intros Hall Hv Hy. apply upcoming_loop_returns; assumption.
Qed.

End Returns.

(** * Further properties of the code *)

(** ** The dictionary of the book *)


Lemma find_setitem (k key : string) (r : Record.t) (data : AddressBook.t) :
  AddressBook.find k (AddressBook.setitem key r data)
  = if String.eqb key k then Some r else AddressBook.find k data.
Proof.
  induction data as [|[k0 r0] rest IH]; simpl.
  - destruct (String.eqb_spec key k); reflexivity.
  - destruct (String.eqb_spec k0 key) as [->|Hne]; simpl.
    + destruct (String.eqb_spec key k); reflexivity.
    + destruct (String.eqb_spec k0 k) as [->|Hne'].
      * destruct (String.eqb_spec key k) as [->|_]; [contradiction | reflexivity].
      * exact IH.
Qed.

Lemma find_in_keys (k : string) (data : AddressBook.t) :
  AddressBook.find k data <> None <-> In k (keys data).
Proof.
  induction data as [|[k0 r0] rest IH]; simpl.
  - split; [intros H; contradiction | intros []].
  - destruct (String.eqb_spec k0 k) as [->|Hne].
    + split; [intros _; left; reflexivity | intros _; discriminate].
    + rewrite IH. split; [intros H; right; exact H|].
      intros [H|H]; [contradiction | exact H].
Qed.

Lemma keys_setitem (key : string) (r : Record.t) (data : AddressBook.t) :
  (In key (keys data) -> keys (AddressBook.setitem key r data) = keys data)
  /\ (~ In key (keys data) ->
      keys (AddressBook.setitem key r data) = (keys data ++ [key])%list).
Proof.
  induction data as [|[k0 r0] rest [IH1 IH2]]; simpl.
  - split; [intros [] | reflexivity].
  - destruct (String.eqb_spec k0 key) as [->|Hne]; simpl.
    + split; [reflexivity|]. intros H. exfalso. apply H. left. reflexivity.
    + split.
      * intros [H|H]; [contradiction|]. f_equal. apply IH1, H.
      * intros H. f_equal. apply IH2. intros Hin. apply H. right. exact Hin.
Qed.

Lemma NoDup_setitem (key : string) (r : Record.t) (data : AddressBook.t) :
  NoDup (keys data) -> NoDup (keys (AddressBook.setitem key r data)).
Proof.
  intros H. destruct (in_dec string_dec key (keys data)) as [Hin|Hin].
  - rewrite (proj1 (keys_setitem key r data) Hin). exact H.
  - rewrite (proj2 (keys_setitem key r data) Hin).
    apply NoDup_app; [exact H | constructor; [intros [] | constructor] |].
    intros x Hx [<-|[]]. contradiction.
Qed.

(** X1: after [add_record], [find] under the name of the record returns
    that record, and under every other name what it returned before. *)
Theorem add_record_find (r : Record.t) (data : AddressBook.t) :
  AddressBook.find (Field.value (Record.name r)) (AddressBook.add_record r data)
  = Some r
  /\ forall k, k <> Field.value (Record.name r) ->
       AddressBook.find k (AddressBook.add_record r data) = AddressBook.find k data.
Proof.
  unfold AddressBook.add_record. split.
  - rewrite find_setitem, String.eqb_refl. reflexivity.
  - intros k Hk. rewrite find_setitem.
    destruct (String.eqb_spec (Field.value (Record.name r)) k) as [E|_];
      [symmetry in E; contradiction | reflexivity].
Qed.

(** X2: [add_record] leaves the names and their order as they are when
    the name of the record is in the book (the record is replaced in its
    place), puts a new name at the end, and never makes a name occur
    twice. *)
Theorem add_record_keys (r : Record.t) (data : AddressBook.t) :
  let key := Field.value (Record.name r) in
  (In key (keys data) -> keys (AddressBook.add_record r data) = keys data)
  /\ (~ In key (keys data) ->
      keys (AddressBook.add_record r data) = (keys data ++ [key])%list)
  /\ (NoDup (keys data) -> NoDup (keys (AddressBook.add_record r data))).
Proof.
  unfold AddressBook.add_record. simpl.
  split; [apply keys_setitem|]. split; [apply keys_setitem | apply NoDup_setitem].
Qed.

Lemma delete_absent (name : string) (data : AddressBook.t) :
  ~ In name (keys data) -> AddressBook.delete name data = data.
Proof.
  induction data as [|[k0 r0] rest IH]; simpl; [reflexivity|].
  intros H. destruct (String.eqb_spec k0 name) as [->|Hne].
  - exfalso. apply H. left. reflexivity.
  - f_equal. apply IH. intros Hin. apply H. right. exact Hin.
Qed.

Lemma find_delete_other (k name : string) (data : AddressBook.t) :
  k <> name ->
  AddressBook.find k (AddressBook.delete name data) = AddressBook.find k data.
Proof.
  intros Hk. induction data as [|[k0 r0] rest IH]; simpl; [reflexivity|].
  destruct (String.eqb_spec k0 name) as [->|Hne]; simpl.
  - destruct (String.eqb_spec name k) as [E|_]; [symmetry in E; contradiction|].
    reflexivity.
  - destruct (String.eqb_spec k0 k); [reflexivity | exact IH].
Qed.

Lemma keys_delete_incl (name : string) (data : AddressBook.t) (k : string) :
  In k (keys (AddressBook.delete name data)) -> In k (keys data).
Proof.
  induction data as [|[k0 r0] rest IH]; simpl; [intros []|].
  destruct (String.eqb_spec k0 name) as [->|Hne]; simpl.
  - intros H. right. exact H.
  - intros [H|H]; [left; exact H | right; apply IH, H].
Qed.

Lemma NoDup_delete (name : string) (data : AddressBook.t) :
  NoDup (keys data) -> NoDup (keys (AddressBook.delete name data)).
Proof.
  induction data as [|[k0 r0] rest IH]; simpl; [intros H; exact H|].
  intros H. inversion H as [|x l Hx Hl]; subst.
  destruct (String.eqb_spec k0 name) as [->|Hne]; simpl; [exact Hl|].
  constructor; [|apply IH, Hl].
  intros Hin. apply Hx. apply (keys_delete_incl name rest), Hin.
Qed.

Lemma find_delete_same (name : string) (data : AddressBook.t) :
  NoDup (keys data) ->
  AddressBook.find name (AddressBook.delete name data) = None.
Proof.
  induction data as [|[k0 r0] rest IH]; simpl; [reflexivity|].
  intros H. inversion H as [|x l Hx Hl]; subst.
  destruct (String.eqb_spec k0 name) as [->|Hne]; simpl.
  - destruct (AddressBook.find name rest) eqn:E; [|reflexivity].
    exfalso. apply Hx. apply find_in_keys. rewrite E. discriminate.
  - destruct (String.eqb_spec k0 name); [contradiction | apply IH, Hl].
Qed.

(** X3: in a book where no name occurs twice, after [delete] the name
    is not found, every other name is found as before, still no name
    occurs twice, and deleting a name that is not there changes nothing. *)
Theorem delete_spec (name : string) (data : AddressBook.t)
        (H : NoDup (keys data)) :
  AddressBook.find name (AddressBook.delete name data) = None
  /\ (forall k, k <> name ->
        AddressBook.find k (AddressBook.delete name data) = AddressBook.find k data)
  /\ NoDup (keys (AddressBook.delete name data))
  /\ (AddressBook.find name data = None -> AddressBook.delete name data = data).
Proof.
  split; [apply find_delete_same, H|].
  split; [intros k Hk; apply find_delete_other, Hk|].
  split; [apply NoDup_delete, H|].
  intros Hn. apply delete_absent. intros Hin. apply find_in_keys in Hin. contradiction.
Qed.


Lemma find_in_split (phone : string) (ps : list Phone.t) (i : nat) :
  Record.find_in phone ps = Some i ->
  exists l1 p l2,
    ps = (l1 ++ p :: l2)%list /\ Field.value p = phone
    /\ ~ In phone (map Field.value l1)
    /\ nth_error ps i = Some p
    /\ Record.remove_at i ps = (l1 ++ l2)%list.
Proof.
  revert i. induction ps as [|p rest IH]; intros i; simpl; [discriminate|].
  destruct (String.eqb_spec (Field.value p) phone) as [E|E].
  - intros H. injection H as <-. exists [], p, rest. simpl. auto 6.
  - destruct (Record.find_in phone rest) as [j|]; simpl; [|discriminate].
    intros H. injection H as <-.
    destruct (IH j eq_refl) as (l1 & q & l2 & -> & Hq & Hn & Hnth & Hrem).
    exists (p :: l1), q, l2. simpl. repeat split; auto.
    + intros [H|H]; [contradiction | apply Hn, H].
    + rewrite Hrem. reflexivity.
Qed.

Lemma delete_spec_witness :
  NoDup (keys [("Ann", ann); ("Bob", june_ann)])
  /\ AddressBook.find "Ann" (AddressBook.delete "Ann" [("Ann", ann); ("Bob", june_ann)])
     = None.
Proof.
  assert (H : NoDup (keys [("Ann", ann); ("Bob", june_ann)])).
  { repeat constructor; simpl; intros H;
      repeat (destruct H as [H|H]; [discriminate H|]); exact H. }
  split; [exact H|].
  exact (proj1 (delete_spec "Ann" [("Ann", ann); ("Bob", june_ann)] H)).
Defined.

(** X4: [remove_phone] returns [None] and leaves the record as it is
    when no phone has the value; otherwise it takes away the first phone
    with the value, keeps the others in their order, and returns the phone
    taken away. *)
Theorem remove_phone_spec (r : Record.t) (phone : string) :
  (~ In phone (map Field.value (Record.phones r)) ->
     Record.remove_phone phone r = (Ok None, r))
  /\ (In phone (map Field.value (Record.phones r)) ->
      exists l1 p l2,
        Record.phones r = (l1 ++ p :: l2)%list
        /\ Field.value p = phone
        /\ ~ In phone (map Field.value l1)
        /\ Record.remove_phone phone r
           = (Ok (Some p), Record.set_phones (l1 ++ l2) r)).
Proof.
  unfold Record.remove_phone, bind, Record.find_phone, bind, get, put, ret. split.
  - intros H. apply find_in_none in H. rewrite H. reflexivity.
  - intros H. destruct (find_in_some _ _ H) as [i Hi]. rewrite Hi.
    destruct (find_in_split _ _ _ Hi) as (l1 & p & l2 & E & Hp & Hn & Hnth & Hrem).
    exists l1, p, l2. rewrite Hrem, Hnth. auto.
Qed.

(** ** The creation of a record and its birthday *)

Section Creation.
Import Datetime.

Lemma birthday_new_ok (text : string) (d m y : Z) :
  birthday_text text d m y -> fields_ok y m d = true ->
  Birthday.new text = Ok (Field.mk text).
Proof.
  intros Ht Hf. unfold Birthday.new.
  rewrite (strptime_real_date text d m y Ht Hf). reflexivity.
Qed.

Lemma birthday_new_cases (text : string) :
  Birthday.new text = Ok (Field.mk text)
  \/ Birthday.new text = Raise (ValueError "Invalid date format").
Proof.
  unfold Birthday.new, strptime.
  destruct (regex_match text) as [[[[d m] y] rest]|]; [|right; reflexivity].
  destruct (PyStr.truthy rest); [right; reflexivity|].
  destruct (fields_ok y m d) eqn:E.
  - rewrite (date_new_ok y m d E). left. reflexivity.
  - destruct (date_new_raises y m d E) as [msg ->]. right. reflexivity.
Qed.

(** X5: the creation of a record checks the phone first: a phone that
    is not ten digits gives "Invalid phone number" whatever the birthday
    is; with a valid phone, no birthday or the empty string gives a record
    without birthday, a text that the expression of ["%d.%m.%Y"] matches
    as a whole and that denotes a real date gives a record with that
    birthday, and any other text gives "Invalid date format".  The record
    created holds the one phone.  The texts are those of this
    development, over the code points 0..255, where the decimal digits
    that [\d] matches are the characters "0" to "9". *)
Theorem record_new_spec (name phone : string) (birthday : option string) :
  (~ ten_digits phone ->
     Record.new name phone birthday = Raise (ValueError "Invalid phone number"))
  /\ (ten_digits phone ->
      match birthday with
      | None => Record.new name phone birthday
                = Ok (Record.mk (Field.mk name) [Field.mk phone] None)
      | Some text =>
          (text = "" ->
             Record.new name phone birthday
             = Ok (Record.mk (Field.mk name) [Field.mk phone] None))
          /\ (forall d m y,
                strptime_text text d m y -> fields_ok y m d = true ->
                Record.new name phone birthday
                = Ok (Record.mk (Field.mk name) [Field.mk phone]
                                (Some (Field.mk text))))
          /\ (text <> "" ->
              (forall d m y,
                  strptime_text text d m y -> fields_ok y m d = false) ->
              Record.new name phone birthday
              = Raise (ValueError "Invalid date format"))
      end).
Proof.
  unfold Record.new, and_then, Phone.new. split.
  - intros H. destruct (Phone.validate_phone phone) eqn:E; [|reflexivity].
    exfalso. apply H, validate_phone_ten_digits, E.
  - intros H. apply validate_phone_ten_digits in H. rewrite H. simpl.
    destruct birthday as [text|]; [|reflexivity].
    split; [intros ->; reflexivity|]. split.
    + intros d m y Ht Hf. rewrite (birthday_new_reads text d m y Ht Hf).
      destruct text; [|reflexivity].
      exfalso. destruct Ht as (D & T & Y & E & _). destruct D; discriminate E.
    + intros Hne Hall. rewrite (birthday_new_other text Hall).
      destruct text; [contradiction | reflexivity].
Qed.

(** X6: [edit_birthday] with a text that the expression of
    ["%d.%m.%Y"] matches as a whole and that denotes a real date sets the
    birthday and leaves the name and the phones; with any other text it
    raises "Invalid date format" and leaves the record as it was.  The
    texts are those of this development, over the code points 0..255,
    where the decimal digits that [\d] matches are the characters "0" to
    "9". *)
Theorem edit_birthday_atomic (r : Record.t) (text : string) :
  (forall d m y,
      strptime_text text d m y -> fields_ok y m d = true ->
      Record.edit_birthday text r
      = (Ok tt,
         Record.mk (Record.name r) (Record.phones r) (Some (Field.mk text))))
  /\ ((forall d m y, strptime_text text d m y -> fields_ok y m d = false) ->
      Record.edit_birthday text r
      = (Raise (ValueError "Invalid date format"), r)).
Proof.
  unfold Record.edit_birthday, bind, lift, modify. split.
  - intros d m y Ht Hf. rewrite (birthday_new_reads text d m y Ht Hf).
    reflexivity.
  - intros H. rewrite (birthday_new_other text H). reflexivity.
Qed.

End Creation.

(** ** Weekdays and the entries of the schedule *)

Section Weekdays.
Import Datetime.

(** X7: for a date at least a week before the last date, and a weekday
    from 0 to 6, [find_next_weekday] returns the first date after the
    start with that weekday: one to seven days later (a week later when
    the start has the weekday itself), with no date of that weekday in
    between. *)
Theorem find_next_weekday_spec (d : date) (w : Z)
        (Hv : date_valid d) (Hw : 0 <= w <= 6)
        (Hr : toordinal d + 7 <= _MAXORDINAL) :
  exists m,
    AddressBook.find_next_weekday d w = Ok m
    /\ date_valid m
    /\ weekday m = w
    /\ 1 <= sub_days m d <= 7
    /\ date_ltb d m = true
    /\ forall x, 0 < sub_days x d -> 0 < sub_days m x -> weekday x <> w.
Proof.
  pose proof (weekday_range d) as Hwd.
  pose proof (toordinal_bounds d Hv) as Hb.
  unfold AddressBook.find_next_weekday.
  set (k := if w - weekday d <=? 0 then w - weekday d + 7 else w - weekday d).
  assert (Hk : 1 <= k <= 7).
  { unfold k. destruct (w - weekday d <=? 0) eqn:E;
      [apply Z.leb_le in E | apply Z.leb_gt in E]; lia. }
  assert (Hkw : (weekday d + k) mod 7 = w).
  { unfold k. destruct (w - weekday d <=? 0) eqn:E.
    - replace (weekday d + (w - weekday d + 7)) with (w + 1 * 7) by lia.
      rewrite Z.mod_add by lia. apply Z.mod_small. lia.
    - replace (weekday d + (w - weekday d)) with w by lia.
      apply Z.mod_small. lia. }
  destruct (add_days_ok d k ltac:(lia)) as (m & Hm & Hvm & Hom).
  exists m. split; [exact Hm|]. split; [exact Hvm|].
  unfold sub_days.
  assert (Hwm : weekday m = w).
  { unfold weekday in *. rewrite Hom. rewrite <- Hkw.
    Z.div_mod_to_equations. lia. }
  split; [exact Hwm|]. split; [lia|].
  split; [apply toordinal_lt_ltb; [exact Hv | exact Hvm | lia]|].
  intros x Hx1 Hx2 Hx. rewrite Hom in Hx2.
  unfold weekday in Hwm, Hx. rewrite Hom in Hwm.
  Z.div_mod_to_equations. lia.
Qed.

Lemma date_new_inv (y m d : Z) (x : date) :
  date_new y m d = Ok x -> x = mkdate y m d /\ fields_ok y m d = true.
Proof.
  intros H. destruct (fields_ok y m d) eqn:E.
  - rewrite (date_new_ok y m d E) in H. injection H as <-. auto.
  - destruct (date_new_raises y m d E) as [msg Hm]. rewrite Hm in H. discriminate.
Qed.

Lemma add_days_inv (d : date) (k : Z) (m : date) :
  add_days d k = Ok m -> date_valid m /\ toordinal m = toordinal d + k.
Proof.
  intros H.
  destruct (Z_lt_le_dec 0 (toordinal d + k)) as [L|L];
    [destruct (Z_le_gt_dec (toordinal d + k) _MAXORDINAL) as [U|U]|].
  - destruct (add_days_ok d k (conj L U)) as (m' & E & Hv & Ho).
    rewrite E in H. injection H as <-. auto.
  - unfold add_days in H.
    assert (E : (toordinal d + k <=? _MAXORDINAL) = false) by (apply Z.leb_gt; lia).
    rewrite E, andb_false_r in H. discriminate.
  - unfold add_days in H.
    assert (E : (0 <? toordinal d + k) = false) by (apply Z.ltb_ge; lia).
    rewrite E in H. discriminate.
Qed.

Lemma adjust_for_weekend_inv (c adj : date) :
  date_valid c -> AddressBook.adjust_for_weekend c = Ok adj ->
  date_valid adj /\ weekday adj < 4 /\ 0 <= sub_days adj c <= 3.
Proof.
  intros Hv. unfold AddressBook.adjust_for_weekend, sub_days.
  pose proof (weekday_range c) as Hw.
  destruct (4 <=? weekday c) eqn:E.
  - apply Z.leb_le in E. unfold AddressBook.find_next_weekday.
    assert (E0 : (0 - weekday c <=? 0) = true) by (apply Z.leb_le; lia).
    rewrite E0. intros H. apply add_days_inv in H. destruct H as [Hva Ho].
    split; [exact Hva|]. unfold weekday in *. rewrite Ho.
    Z.div_mod_to_equations. lia.
  - apply Z.leb_gt in E. intros H. injection H as <-.
    split; [exact Hv|]. lia.
Qed.

Lemma adjusted_birthday_inv (value : string) (today adj : date) :
  AddressBook.adjusted_birthday value today = Ok adj ->
  date_valid adj /\ weekday adj < 4.
Proof.
  unfold AddressBook.adjusted_birthday, and_then.
  destruct (strptime value) as [parsed|]; [|discriminate].
  unfold replace_year at 1.
  destruct (date_new (year today) (month parsed) (day parsed)) as [c|] eqn:Ec;
    [|discriminate].
  apply date_new_inv in Ec. destruct Ec as [-> Hc].
  destruct (date_ltb (mkdate (year today) (month parsed) (day parsed)) today).
  - unfold replace_year. simpl.
    destruct (date_new (year today + 1) (month parsed) (day parsed)) as [c|] eqn:Ec;
      [|discriminate].
    apply date_new_inv in Ec. destruct Ec as [-> Hc'].
    intros H. apply adjust_for_weekend_inv in H; [tauto | exact Hc'].
  - intros H. apply adjust_for_weekend_inv in H; [tauto | exact Hc].
Qed.

(** X8: when the schedule returns a list, an entry is in it exactly when
    it comes from a record with a birthday whose adjusted date is from 0 to
    [days] days after [today]; and every entry carries the name of a record
    of the book that has a birthday, and a date that is a date of the
    calendar and falls on Monday to Thursday. *)
Theorem upcoming_entries_spec (data : AddressBook.t) (days : Z) (today : date)
        (l : list AddressBook.upcoming)
        (H : AddressBook.get_upcoming_birthdays data days today = Ok l) :
  forall u,
    (In u l <->
     exists r b,
       In r (AddressBook.values data)
       /\ Record.birthday r = Some b
       /\ AddressBook.u_name u = Field.value (Record.name r)
       /\ AddressBook.adjusted_birthday (Field.value b) today
          = Ok (AddressBook.u_birthday u)
       /\ 0 <= sub_days (AddressBook.u_birthday u) today <= days)
    /\ (In u l ->
        date_valid (AddressBook.u_birthday u)
        /\ weekday (AddressBook.u_birthday u) < 4
        /\ 0 <= sub_days (AddressBook.u_birthday u) today <= days
        /\ exists r, In r (AddressBook.values data)
                     /\ AddressBook.u_name u = Field.value (Record.name r)
                     /\ Record.birthday r <> None).
Proof.
  intros u. pose proof (get_upcoming_birthdays_member data days today l H u) as M.
  split; [exact M|].
  intros Hu. apply M in Hu.
  destruct Hu as (r & b & Hin & Hb & Hn & Ha & Hw).
  destruct (adjusted_birthday_inv _ _ _ Ha) as [Hv Hwd].
  split; [exact Hv|]. split; [exact Hwd|]. split; [exact Hw|].
  exists r. split; [exact Hin|]. split; [exact Hn|]. rewrite Hb. discriminate.
Qed.

Lemma upcoming_entries_spec_witness :
  AddressBook.get_upcoming_birthdays [("Ann", june_ann)] 7 (mkdate 2024 6 3)
  = Ok [AddressBook.mk_upcoming "Ann" (mkdate 2024 6 10)]
  /\ weekday (mkdate 2024 6 10) < 4.
Proof.
  split; [reflexivity|].
  apply (proj2 (upcoming_entries_spec [("Ann", june_ann)] 7 (mkdate 2024 6 3)
                  [AddressBook.mk_upcoming "Ann" (mkdate 2024 6 10)] eq_refl
                  (AddressBook.mk_upcoming "Ann" (mkdate 2024 6 10)))).
  left. reflexivity.
Defined.

Lemma find_next_weekday_spec_witness :
  exists m,
    AddressBook.find_next_weekday (mkdate 2024 6 3) 2 = Ok m
    /\ date_valid m /\ weekday m = 2.
Proof.
  destruct (find_next_weekday_spec (mkdate 2024 6 3) 2) as (m & H1 & H2 & H3 & _).
  - reflexivity.
  - lia.
  - vm_compute. discriminate.
  - exists m. auto.
Defined.

End Weekdays.


Ltac split_range d n k :=
  match k with
  | O => exfalso; lia
  | S ?k' =>
      destruct (Z.eq_dec d n) as [->|?];
      [ | let n' := eval compute in (n + 1) in split_range d n' k' ]
  end.

(** ** Dates written year first *)

Section OtherFormat.
Import Datetime.

Lemma shape_no_year_first (s : string) (d m y : Z) (rest : string) :
  regex_shape s d m y rest -> Y_group s = None.
Proof.
  pose proof digit_val_dot as Hdot. pose proof digit_val_space as Hsp.
  intros (D & T & Y & -> & HD & _ & HT & _ & _).
  destruct HD as [HD|[HD|HD]].
  - destruct HD as (a & b & x & z & -> & Ea & Eb & _). cbn [append].
    unfold Y_group.
    destruct (T ++ String "." (Y ++ rest)) as [|c r]; [reflexivity|].
    rewrite Ea, Eb, Hdot. reflexivity.
  - destruct HD as (a & -> & Ea). cbn [append].
    unfold Y_group.
    destruct (T ++ String "." (Y ++ rest)) as [|c [|c' r]]; try reflexivity.
    rewrite Ea, Hdot. reflexivity.
  - destruct HD as (T' & -> & a & -> & Ea). cbn [append].
    unfold Y_group.
    destruct (T ++ String "." (Y ++ rest)) as [|c r]; [reflexivity|].
    rewrite Hsp. reflexivity.
Qed.

Lemma birthday_new_inv (text : string) (b : Birthday.t) :
  Birthday.new text = Ok b ->
  b = Field.mk text /\ exists d m y, regex_shape text d m y "".
Proof.
  unfold Birthday.new, strptime.
  destruct (regex_match text) as [[[[d m] y] rest]|] eqn:E; [|discriminate].
  destruct rest as [|c rest]; simpl; [|discriminate].
  apply regex_match_shape in E.
  destruct (date_new y m d) as [x|[]]; try discriminate.
  intros H. injection H as <-. split; [reflexivity|]. exists d, m, y. exact E.
Qed.

(** X10: [string_to_date] reads year.month.day, and the birthdays are
    stored as day.month.year: on the value of every birthday that passed
    the validation, [string_to_date] raises [ValueError]. *)
Theorem string_to_date_refuses_birthdays (text : string) (b : Birthday.t)
        (H : Birthday.new text = Ok b) :
  AddressBook.string_to_date (Field.value b)
  = Raise (ValueError "time data does not match format").
Proof.
  apply birthday_new_inv in H. destruct H as [-> (d & m & y & Hs)]. simpl.
  unfold AddressBook.string_to_date, strptime_Ymd, regex_match_Ymd.
  rewrite (shape_no_year_first _ _ _ _ _ Hs). reflexivity.
Qed.

Lemma string_to_date_refuses_birthdays_witness :
  AddressBook.string_to_date "08.06.1990"
  = Raise (ValueError "time data does not match format").
Proof.
  apply (string_to_date_refuses_birthdays "08.06.1990" (Field.mk "08.06.1990")).
  reflexivity.
Defined.

Lemma string_to_date_value_error (s : string) (e : exn) :
  AddressBook.string_to_date s = Raise e -> exists msg, e = ValueError msg.
Proof.
  unfold AddressBook.string_to_date, strptime_Ymd.
  destruct (regex_match_Ymd s) as [[[[y m] d] rest]|].
  - destruct (PyStr.truthy rest).
    + intros H. injection H as <-. eexists; reflexivity.
    + destruct (fields_ok y m d) eqn:E.
      * rewrite (date_new_ok y m d E). discriminate.
      * destruct (date_new_raises y m d E) as [msg ->].
        intros H. injection H as <-. eexists; reflexivity.
  - intros H. injection H as <-. eexists; reflexivity.
Qed.

Lemma prepare_loop_raises (records : list Record.t) (acc : list AddressBook.upcoming) :
  Exists validated_birthday records ->
  exists msg, AddressBook.prepare_loop records acc = Raise (ValueError msg).
Proof.
  intros H. revert acc. induction H as [r rest Hr|r rest _ IH]; intros acc; simpl.
  - destruct Hr as (b & -> & Hb).
    apply birthday_new_inv in Hb. destruct Hb as [Eb (d & m & y & Hs)].
    unfold AddressBook.string_to_date, strptime_Ymd, regex_match_Ymd.
    rewrite (shape_no_year_first _ _ _ _ _ Hs). simpl.
    eexists; reflexivity.
  - destruct (Record.birthday r) as [b|]; [|apply IH].
    destruct (AddressBook.string_to_date (Field.value b)) as [dt|e] eqn:E; simpl.
    + apply IH.
    + destruct (string_to_date_value_error _ _ E) as [msg ->].
      eexists; reflexivity.
Qed.

Lemma prepare_loop_no_birthday (records : list Record.t) (acc : list AddressBook.upcoming) :
  Forall (fun r => Record.birthday r = None) records ->
  AddressBook.prepare_loop records acc = Ok acc.
Proof.
  intros H. revert acc. induction H as [|r rest Hr _ IH]; intros acc; simpl.
  - reflexivity.
  - rewrite Hr. apply IH.
Qed.

(** X11: [prepare_user_list] returns the empty list on a book without
    birthdays, and raises [ValueError] on every book in which some record
    has a validated birthday: it never returns an entry for one. *)
Theorem prepare_user_list_spec (data : AddressBook.t) :
  (Forall (fun r => Record.birthday r = None) (AddressBook.values data) ->
     AddressBook.prepare_user_list data = Ok [])
  /\ (Exists validated_birthday (AddressBook.values data) ->
      exists msg, AddressBook.prepare_user_list data = Raise (ValueError msg)).
Proof.
  unfold AddressBook.prepare_user_list. split.
  - apply prepare_loop_no_birthday.
  - apply prepare_loop_raises.
Qed.

Lemma digit_val_digit_char (n : Z) : digit_val (digit_char n) = Some (n mod 10).
Proof.
  unfold digit_char.
  pose proof (Z.mod_pos_bound n 10 ltac:(lia)) as H.
  set (r := n mod 10) in *. clearbody r.
  split_range r 0 10%nat; reflexivity.
Qed.

Lemma Y_group_year_digits (y : Z) (r : string) :
  1000 <= y <= 9999 -> Y_group (year_digits y ++ r) = Some (y, r).
Proof.
  intros H. unfold year_digits.
  assert (E1 : (y <? 10) = false) by (apply Z.ltb_ge; lia).
  assert (E2 : (y <? 100) = false) by (apply Z.ltb_ge; lia).
  assert (E3 : (y <? 1000) = false) by (apply Z.ltb_ge; lia).
  rewrite E1, E2, E3. cbn [append]. unfold Y_group.
  rewrite !digit_val_digit_char. do 2 f_equal.
  Z.div_mod_to_equations. lia.
Qed.

Lemma month_day_match (y m d : Z) :
  1 <= m <= 12 -> 1 <= d <= 31 ->
  alt_then m_group (two_digits_of m ++ "." ++ two_digits_of d)
    (fun m0 r3 =>
       match dot r3 with
       | Some r4 => alt_then d_group r4 (fun d0 r5 => Some (y, m0, d0, r5))
       | None => None
       end)
  = Some (y, m, d, "").
Proof.
  intros Hm Hd.
  split_range m 1 12%nat; split_range d 1 31%nat; reflexivity.
Qed.

(** X12: for a date from the year 1000 on, [string_to_date] reads back
    from [date_to_string] the date that was written. *)
Theorem date_string_round_trip (d : date)
        (Hv : date_valid d) (Hy : 1000 <= year d) :
  AddressBook.string_to_date (AddressBook.date_to_string d) = Ok d.
Proof.
  destruct d as [y m dd]. unfold date_valid in Hv. simpl in Hv, Hy.
  pose proof Hv as Hf. apply fields_ok_iff in Hv. destruct Hv as (Hy' & Hm & Hd).
  pose proof (days_in_month_le_31 y m Hm) as H31.
  unfold AddressBook.string_to_date, AddressBook.date_to_string,
    strftime_Ymd, strptime_Ymd, regex_match_Ymd. simpl year. simpl month. simpl day.
  rewrite Y_group_year_digits by lia. cbv beta iota.
  change (dot ("." ++ two_digits_of m ++ "." ++ two_digits_of dd))
    with (Some (two_digits_of m ++ "." ++ two_digits_of dd)).
  cbv beta iota.
  rewrite (month_day_match y m dd Hm ltac:(lia)). simpl.
  apply date_new_ok, Hf.
Qed.

Lemma date_string_round_trip_witness :
  AddressBook.date_to_string (mkdate 2024 6 3) = "2024.06.03"
  /\ AddressBook.string_to_date (AddressBook.date_to_string (mkdate 2024 6 3))
     = Ok (mkdate 2024 6 3).
Proof.
  split; [reflexivity|].
  apply (date_string_round_trip (mkdate 2024 6 3)); [reflexivity | simpl; lia].
Defined.

End OtherFormat.

Lemma grows_refl {A} (l : list A) : grows l l.
Proof. exists []. symmetry. apply app_nil_r. Qed.

Lemma grows_one {A} (l : list A) (x : A) : grows l (l ++ [x]).
Proof. exists [x]. reflexivity. Qed.

Lemma grows_app {A} (l more : list A) : grows l (l ++ more).
Proof. exists more. reflexivity. Qed.

Lemma add_phone_name (p : string) (r : Record.t) :
  Record.name (snd (Record.add_phone p r)) = Record.name r.
Proof.
  destruct (Phone.validate_phone p) eqn:E.
  - rewrite (add_phone_valid r p E). reflexivity.
  - rewrite (add_phone_invalid r p E). reflexivity.
Qed.

Lemma edit_birthday_name (b : string) (r : Record.t) :
  Record.name (snd (Record.edit_birthday b r)) = Record.name r.
Proof.
  unfold Record.edit_birthday, bind, lift, modify.
  destruct (Birthday.new b); reflexivity.
Qed.

Lemma edit_birthday_ok (b : string) (r : Record.t) :
  record_ok r -> record_ok (snd (Record.edit_birthday b r)).
Proof.
  unfold record_ok, all_phones_valid. rewrite edit_birthday_phones. tauto.
Qed.

Ltac run_monad :=
  unfold bind, ret, lift, get, put, modify, raise,
    ContactApp.show_message, ContactApp.show_contacts_str,
    ContactApp.show_contacts_list, ContactApp.on_book, ContactApp.find,
    on_record; simpl.

Lemma hello_effect : handler_effect ContactApp.hello.
Proof.
  intros args self. unfold ContactApp.hello. run_monad.
  split; [constructor | apply grows_one].
Qed.

(** What [exit] does, by what writing the file does. *)
Lemma exit_saved (written : result unit) (args : list string)
      (self : ContactApp.t) :
  saved written = true ->
  ContactApp.exit written args self
  = (Ok (Some "exit"),
     ContactApp.mk (ContactApp.book self)
                   (ContactApp.printed self ++ ["Good bye!"])).
Proof.
  unfold ContactApp.exit, save_data, input_error. run_monad.
  destruct written as [[]|[]]; intros H;
    first [discriminate H | reflexivity].
Qed.

Lemma exit_raises (e : exn) (args : list string) (self : ContactApp.t) :
  caught e = false ->
  ContactApp.exit (Raise e) args self = (Raise e, self).
Proof.
  destruct self as [book printed].
  unfold ContactApp.exit, save_data, input_error. run_monad.
  destruct e; intros H; first [discriminate H | reflexivity].
Qed.

Lemma exit_cases (written : result unit) (args : list string)
      (self : ContactApp.t) :
  ContactApp.exit written args self
  = (Ok (Some "exit"),
     ContactApp.mk (ContactApp.book self)
                   (ContactApp.printed self ++ ["Good bye!"]))
  \/ exists e, ContactApp.exit written args self = (Raise e, self).
Proof.
  destruct (saved written) eqn:E.
  - left. apply exit_saved, E.
  - right. destruct written as [[]|e]; [discriminate E|].
    exists e. apply exit_raises, E.
Qed.

Lemma exit_effect (written : result unit) :
  handler_effect (ContactApp.exit written).
Proof.
  intros args self.
  destruct (exit_cases written args self) as [E|[e E]]; rewrite E; simpl.
  - split; [constructor | apply grows_one].
  - split; [constructor | apply grows_refl].
Qed.

Lemma add_contact_effect : handler_effect ContactApp.add_contact.
Proof.
  intros args self. unfold ContactApp.add_contact. run_monad.
  destruct (unpack2 args) as [[name phone]|e]; simpl;
    [|split; [constructor | apply grows_refl]].
  destruct (AddressBook.find name (ContactApp.book self)) as [record|] eqn:Ef.
  - pose proof (add_phone_name phone record) as Hn.
    pose proof (add_phone_ok record phone) as Hok.
    destruct (Record.add_phone phone record) as [[x|e] record'];
      simpl in *; (split; [eapply book_record_changed; eauto|]);
      [apply grows_one | apply grows_refl].
  - destruct (PyStr.len phone =? 10); simpl;
      [|split; [constructor | apply grows_one]].
    destruct (Record.new name phone None) as [r|e] eqn:En; simpl.
    + split; [eapply book_record_added; eauto | apply grows_one].
    + split; [constructor | apply grows_refl].
Qed.

Lemma change_contact_effect : handler_effect ContactApp.change_contact.
Proof.
  intros args self. unfold ContactApp.change_contact. run_monad.
  destruct (unpack2 args) as [[name phone]|e]; simpl;
    [|split; [constructor | apply grows_refl]].
  destruct (AddressBook.find name (ContactApp.book self)) as [record|] eqn:Ef;
    simpl; [|split; [constructor | apply grows_one]].
  destruct (item0 (Record.phones record)) as [first|e]; simpl;
    [|split; [constructor | apply grows_refl]].
  pose proof (edit_phone_state record (Field.value first) phone) as Hs.
  destruct (Record.edit_phone (Field.value first) phone record) as [[x|e] record'];
    simpl in *; subst record';
    (split; [eapply book_record_changed; eauto|]);
    [apply grows_one | apply grows_refl].
Qed.

Lemma show_phone_effect : handler_effect ContactApp.show_phone.
Proof.
  intros args self. unfold ContactApp.show_phone. run_monad.
  destruct (item0 args) as [name|e]; simpl;
    [|split; [constructor | apply grows_refl]].
  destruct (AddressBook.find name (ContactApp.book self)) as [record|];
    simpl; [|split; [constructor | apply grows_one]].
  destruct (item0 (Record.phones record)) as [first|e]; simpl;
    (split; [constructor|]); [apply grows_one | apply grows_refl].
Qed.

Lemma show_all_contacts_effect : handler_effect ContactApp.show_all_contacts.
Proof.
  intros args self. unfold ContactApp.show_all_contacts. run_monad.
  split; [constructor | apply grows_one].
Qed.

Lemma add_birthday_effect : handler_effect ContactApp.add_birthday.
Proof.
  intros args self. unfold ContactApp.add_birthday. run_monad.
  destruct (unpack2 args) as [[name birthday]|e]; simpl;
    [|split; [constructor | apply grows_refl]].
  destruct (AddressBook.find name (ContactApp.book self)) as [record|] eqn:Ef;
    simpl; [|split; [constructor | apply grows_one]].
  pose proof (edit_birthday_name birthday record) as Hn.
  pose proof (edit_birthday_ok birthday record) as Hok.
  destruct (Record.edit_birthday birthday record) as [[x|e] record'];
    simpl in *; (split; [eapply book_record_changed; eauto|]);
    [apply grows_one | apply grows_refl].
Qed.

Lemma show_birthday_effect : handler_effect ContactApp.show_birthday.
Proof.
  intros args self. unfold ContactApp.show_birthday. run_monad.
  destruct (item0 args) as [name|e]; simpl;
    [|split; [constructor | apply grows_refl]].
  destruct (AddressBook.find name (ContactApp.book self)) as [record|];
    simpl; [|split; [constructor | apply grows_one]].
  destruct (Record.birthday record); simpl;
    (split; [constructor | apply grows_one]).
Qed.

Lemma show_birthdays_effect (today : Datetime.date) :
  handler_effect (ContactApp.show_birthdays today).
Proof.
  intros args self. unfold ContactApp.show_birthdays. run_monad.
  destruct (AddressBook.get_upcoming_birthdays (ContactApp.book self) 7 today)
    as [[|u l]|e]; simpl; (split; [constructor|]);
    [apply grows_one | apply grows_app | apply grows_refl].
Qed.

Lemma lookup_in (command : string) (table : list (string * ContactApp.handler))
      (h : ContactApp.handler) :
  ContactApp.lookup command table = Some h -> In (command, h) table.
Proof.
  induction table as [|[k h0] rest IH]; simpl; [discriminate|].
  destruct (String.eqb_spec k command) as [->|_].
  - intros H. injection H as <-. left. reflexivity.
  - intros H. right. apply IH, H.
Qed.

Lemma commands_effect (today : Datetime.date) (written : result unit)
      (command : string) (h : ContactApp.handler) :
  ContactApp.lookup command (ContactApp.commands today written) = Some h ->
  handler_effect h.
Proof.
  intros H. apply lookup_in in H. simpl in H.
  repeat (destruct H as [H|H]; [injection H as _ <-|]);
    [apply hello_effect | apply add_contact_effect | apply change_contact_effect
    | apply show_phone_effect | apply show_all_contacts_effect
    | apply add_birthday_effect | apply show_birthday_effect
    | apply show_birthdays_effect | apply exit_effect | apply exit_effect
    | destruct H].
Qed.

(** One turn of the loop, written out. *)
Lemma step_eq (today : Datetime.date) (written : result unit)
      (line : string) (self : ContactApp.t) :
  ContactApp.step today written line self
  = match ContactApp.lookup (fst (ContactApp.parse_input_body line))
                            (ContactApp.commands today written) with
    | Some h =>
        match h (snd (ContactApp.parse_input_body line)) self with
        | (Ok (Some r), s') => (Ok (String.eqb r "exit"), s')
        | (Ok None, s') => (Ok false, s')
        | (Raise e, s') => (Raise e, s')
        end
    | None =>
        (Ok false,
         ContactApp.mk (ContactApp.book self)
                       (ContactApp.printed self ++ ["Invalid command."]))
    end.
Proof.
  unfold ContactApp.step, ContactApp.parse_input, input_error, bind, ret, lift,
    ContactApp.unpack_parsed.
  destruct (ContactApp.parse_input_body line) as [command args].
  cbv beta iota. cbn [fst snd].
  destruct (ContactApp.lookup command (ContactApp.commands today written)) as [h|].
  - destruct (h args self) as [[[r|]|e] s']; reflexivity.
  - reflexivity.
Qed.

Lemma step_effect (today : Datetime.date) (written : result unit)
      (line : string) (self : ContactApp.t) :
  book_change (ContactApp.book self)
              (ContactApp.book (snd (ContactApp.step today written line self)))
  /\ grows (ContactApp.printed self)
           (ContactApp.printed (snd (ContactApp.step today written line self))).
Proof.
  rewrite step_eq.
  destruct (ContactApp.lookup (fst (ContactApp.parse_input_body line))
                              (ContactApp.commands today written)) as [h|] eqn:E.
  - destruct (commands_effect today written _ h E
                (snd (ContactApp.parse_input_body line)) self) as [H1 H2].
    destruct (h (snd (ContactApp.parse_input_body line)) self) as [[[r|]|e] s'];
      cbn [snd] in *; auto.
  - cbn [snd ContactApp.book ContactApp.printed].
    split; [constructor | apply grows_one].
Qed.

Lemma find_In (k : string) (r : Record.t) (data : AddressBook.t) :
  AddressBook.find k data = Some r -> In (k, r) data.
Proof.
  induction data as [|[k0 r0] rest IH]; simpl; [discriminate|].
  destruct (String.eqb_spec k0 k) as [->|_].
  - intros H. injection H as <-. left. reflexivity.
  - intros H. right. apply IH, H.
Qed.

Lemma Forall_setitem (P : string * Record.t -> Prop) (key : string)
      (r : Record.t) (data : AddressBook.t) :
  Forall P data -> P (key, r) -> Forall P (AddressBook.setitem key r data).
Proof.
  intros H Hr. induction H as [|[k0 r0] rest H0 Hrest IH]; simpl.
  - constructor; [exact Hr | constructor].
  - destruct (String.eqb_spec k0 key) as [->|_].
    + constructor; [exact Hr | assumption].
    + constructor; [exact H0 | exact IH].
Qed.

Lemma setitem_same (key : string) (r : Record.t) (data : AddressBook.t) :
  AddressBook.find key data = Some r -> AddressBook.setitem key r data = data.
Proof.
  induction data as [|[k0 r0] rest IH]; simpl; [discriminate|].
  destruct (String.eqb_spec k0 key) as [->|_].
  - intros H. injection H as <-. reflexivity.
  - intros H. f_equal. apply IH, H.
Qed.

Lemma setitem_absent (key : string) (r : Record.t) (data : AddressBook.t) :
  AddressBook.find key data = None ->
  AddressBook.setitem key r data = (data ++ [(key, r)])%list.
Proof.
  induction data as [|[k0 r0] rest IH]; simpl; [reflexivity|].
  destruct (String.eqb_spec k0 key) as [->|_]; [discriminate|].
  intros H. f_equal. apply IH, H.
Qed.

Lemma new_record_name (name phone : string) (b : option string) (r : Record.t) :
  Record.new name phone b = Ok r -> Field.value (Record.name r) = name.
Proof.
  unfold Record.new, and_then.
  destruct (Phone.new phone) as [p|]; [|discriminate].
  destruct b as [b|]; [destruct (PyStr.truthy b); [destruct (Birthday.new b)|]|];
    simpl; try discriminate; intros H; injection H as <-; reflexivity.
Qed.

Lemma book_change_ok (b b' : AddressBook.t) :
  book_change b b' -> book_ok b -> book_ok b'.
Proof.
  intros Hc [Hnd Hall]. destruct Hc as [|name r r' Hf Hn Hok|name phone r Hf Hn].
  - split; assumption.
  - split; [apply NoDup_setitem, Hnd|].
    apply Forall_setitem; [exact Hall|].
    rewrite Forall_forall in Hall. destruct (Hall _ (find_In _ _ _ Hf)) as [H1 H2].
    split; simpl in *; [rewrite Hn; exact H1 | apply Hok, H2].
  - split; [apply NoDup_setitem, Hnd|].
    apply Forall_setitem; [exact Hall|].
    split; simpl; [reflexivity | apply (new_record_ok name phone None), Hn].
Qed.

Lemma book_change_keys (b b' : AddressBook.t) :
  book_change b b' -> forall k, In k (keys b) -> In k (keys b').
Proof.
  intros Hc k Hk. destruct Hc as [|name r r' Hf Hn Hok|name phone r Hf Hn].
  - exact Hk.
  - rewrite (proj1 (keys_setitem name r' b)); [exact Hk|].
    apply find_in_keys. rewrite Hf. discriminate.
  - unfold AddressBook.add_record.
    destruct (in_dec string_dec (Field.value (Record.name r)) (keys b)) as [Hin|Hin].
    + rewrite (proj1 (keys_setitem _ r b) Hin). exact Hk.
    + rewrite (proj2 (keys_setitem _ r b) Hin). apply in_or_app. left. exact Hk.
Qed.

Lemma grows_trans {A} (l1 l2 l3 : list A) : grows l1 l2 -> grows l2 l3 -> grows l1 l3.
Proof.
  intros [m1 ->] [m2 ->]. exists (m1 ++ m2)%list. rewrite app_assoc. reflexivity.
Qed.

(** X19: whatever lines a session reads, and whether it ends by an
    exception or not, a book that is in order stays in order (no name
    twice, every record under its own name, with at least one phone and
    every phone of ten digits), no name is lost, and what was printed
    stays printed. *)
Theorem session_keeps_book (today : Datetime.date) (written : result unit)
        (inputs : list string) (self : ContactApp.t)
        (H : book_ok (ContactApp.book self)) :
  let after := snd (ContactApp.loop today written inputs self) in
  book_ok (ContactApp.book after)
  /\ (forall k, In k (keys (ContactApp.book self)) ->
                In k (keys (ContactApp.book after)))
  /\ grows (ContactApp.printed self) (ContactApp.printed after).
Proof.
  revert self H. induction inputs as [|line rest IH]; intros self H; simpl.
  - split; [exact H|]. split; [auto | apply grows_refl].
  - unfold bind.
    destruct (step_effect today written line self) as [Hc Hg].
    pose proof (book_change_ok _ _ Hc H) as Hok.
    pose proof (book_change_keys _ _ Hc) as Hk.
    destruct (ContactApp.step today written line self) as [[stop|e] s'];
      cbn [snd] in *.
    + destruct stop; cbn [snd].
      * split; [exact Hok|]. split; [exact Hk | exact Hg].
      * destruct (IH s' Hok) as (I1 & I2 & I3).
        split; [exact I1|]. split; [auto | eapply grows_trans; eauto].
    + split; [exact Hok|]. split; [exact Hk | exact Hg].
Qed.

Lemma session_keeps_book_witness :
  book_ok []
  /\ book_ok (ContactApp.book
                (snd (ContactApp.loop (Datetime.mkdate 2024 6 3) (Ok tt)
                        ["add Ann 1234567890"; "add Ann 12"; "all"]
                        ContactApp.new))).
Proof.
  assert (H : book_ok []) by (split; constructor).
  split; [exact H|].
  exact (proj1 (session_keeps_book (Datetime.mkdate 2024 6 3) (Ok tt)
                  ["add Ann 1234567890"; "add Ann 12"; "all"] ContactApp.new H)).
Defined.


Lemma lookup_exit (today : Datetime.date) (written : result unit)
      (command : string) :
  command = "exit" \/ command = "close" ->
  ContactApp.lookup command (ContactApp.commands today written)
  = Some (ContactApp.exit written).
Proof. intros [-> | ->]; reflexivity. Qed.

(** X17: a line whose command is "exit" or "close", with or without
    arguments, first writes the book to the file.  When [save_data] comes
    back (the write returned, or raised one of the four classes that
    [input_error] catches), the line prints "Good bye!", leaves the book
    as it is and ends the loop: the lines after it are not read.  When the
    write raises another exception ([PermissionError], say), nothing is
    printed, the state is as before, and the exception leaves the loop. *)
Theorem exit_ends_session (today : Datetime.date) (written : result unit)
        (line : string) (rest : list string) (self : ContactApp.t)
        (H : fst (ContactApp.parse_input_body line) = "exit"
             \/ fst (ContactApp.parse_input_body line) = "close") :
  let after := ContactApp.mk (ContactApp.book self)
                             (ContactApp.printed self ++ ["Good bye!"]) in
  (saved written = true ->
   ContactApp.step today written line self = (Ok true, after)
   /\ ContactApp.loop today written (line :: rest) self
      = (Ok ContactApp.Exited, after))
  /\ (forall e, written = Raise e -> caught e = false ->
      ContactApp.step today written line self = (Raise e, self)
      /\ ContactApp.loop today written (line :: rest) self = (Raise e, self)).
Proof.
  pose proof (step_eq today written line self) as E.
  rewrite (lookup_exit today written _ H) in E.
  split.
  - intros Hs. rewrite (exit_saved written _ self Hs) in E.
    cbn [String.eqb Ascii.eqb Bool.eqb] in E.
    split; [exact E|]. simpl. unfold bind. rewrite E. reflexivity.
  - intros e -> He. rewrite (exit_raises e _ self He) in E.
    split; [exact E|]. simpl. unfold bind. rewrite E. reflexivity.
Qed.

Lemma exit_ends_session_witness :
  ContactApp.loop (Datetime.mkdate 2024 6 3) (Ok tt)
                  ["CLOSE now"; "add Ann 1234567890"] ContactApp.new
  = (Ok ContactApp.Exited, ContactApp.mk [] ["Good bye!"])
  /\ ContactApp.loop (Datetime.mkdate 2024 6 3)
                     (Raise (OSError "Permission denied"))
                     ["CLOSE now"; "add Ann 1234567890"] ContactApp.new
     = (Raise (OSError "Permission denied"), ContactApp.new).
Proof.
  split.
  - refine (proj2 (proj1 (exit_ends_session (Datetime.mkdate 2024 6 3) (Ok tt)
                            "CLOSE now" ["add Ann 1234567890"]
                            ContactApp.new _) eq_refl)).
    right. reflexivity.
  - refine (proj2 (proj2 (exit_ends_session (Datetime.mkdate 2024 6 3)
                            (Raise (OSError "Permission denied"))
                            "CLOSE now" ["add Ann 1234567890"]
                            ContactApp.new _) _ eq_refl eq_refl)).
    right. reflexivity.
Defined.

Lemma hello_reads_only : reads_only ContactApp.hello.
Proof. intros args self. reflexivity. Qed.

Lemma exit_reads_only (written : result unit) :
  reads_only (ContactApp.exit written).
Proof.
  intros args self.
  destruct (exit_cases written args self) as [E|[e E]]; rewrite E; reflexivity.
Qed.

Lemma show_all_contacts_reads_only : reads_only ContactApp.show_all_contacts.
Proof. intros args self. reflexivity. Qed.

Lemma show_phone_reads_only : reads_only ContactApp.show_phone.
Proof.
  intros args self. unfold ContactApp.show_phone. run_monad.
  destruct (item0 args) as [name|e]; simpl; [|reflexivity].
  destruct (AddressBook.find name (ContactApp.book self)) as [record|];
    simpl; [|reflexivity].
  destruct (item0 (Record.phones record)); reflexivity.
Qed.

Lemma show_birthday_reads_only : reads_only ContactApp.show_birthday.
Proof.
  intros args self. unfold ContactApp.show_birthday. run_monad.
  destruct (item0 args) as [name|e]; simpl; [|reflexivity].
  destruct (AddressBook.find name (ContactApp.book self)) as [record|];
    simpl; [|reflexivity].
  destruct (Record.birthday record); reflexivity.
Qed.

Lemma show_birthdays_reads_only (today : Datetime.date) :
  reads_only (ContactApp.show_birthdays today).
Proof.
  intros args self. unfold ContactApp.show_birthdays. run_monad.
  destruct (AddressBook.get_upcoming_birthdays (ContactApp.book self) 7 today)
    as [[|u l]|e]; reflexivity.
Qed.

(** What [change_contact] does, case by case. *)
Lemma change_contact_cases (args : list string) (self : ContactApp.t) :
  ContactApp.change_contact args self
  = (Ok None,
     ContactApp.mk (ContactApp.book self)
                   (ContactApp.printed self ++ ["Contact not found."]))
  \/ exists e, ContactApp.change_contact args self = (Raise e, self).
Proof.
  destruct self as [book printed].
  unfold ContactApp.change_contact. run_monad.
  destruct (unpack2 args) as [[name phone]|e]; simpl;
    [|right; eexists; reflexivity].
  destruct (AddressBook.find name book) as [record|] eqn:Ef;
    simpl; [|left; reflexivity].
  destruct (item0 (Record.phones record)) as [first|e]; simpl;
    [|right; eexists; reflexivity].
  right.
  pose proof (edit_phone_state record (Field.value first) phone) as Hs.
  destruct (Record.edit_phone (Field.value first) phone record) as [[x|e] record']
    eqn:Ee; simpl in Hs; subst record'.
  - exfalso. unfold Record.edit_phone in Ee.
    destruct (PyStr.len phone =? 10); simpl in Ee; [|discriminate].
    unfold bind, Record.find_phone, bind, get, ret in Ee.
    destruct (Record.find_in (Field.value first) (Record.phones record));
      discriminate.
  - simpl. rewrite (setitem_same name record book Ef). eexists; reflexivity.
Qed.

Lemma change_contact_reads_only : reads_only ContactApp.change_contact.
Proof.
  intros args self.
  destruct (change_contact_cases args self) as [E|[e E]]; rewrite E; reflexivity.
Qed.

(** X20: only the commands "add" and "add-birthday" can change the
    book: on a line with any other command, known or not, the book after
    the turn is the book before it, whatever the arguments and whether the
    turn raises or not. *)
Theorem only_add_changes_book (today : Datetime.date)
        (written : result unit) (line : string) (self : ContactApp.t)
        (H : fst (ContactApp.parse_input_body line) <> "add"
             /\ fst (ContactApp.parse_input_body line) <> "add-birthday") :
  ContactApp.book (snd (ContactApp.step today written line self))
  = ContactApp.book self.
Proof.
  destruct H as [H1 H2]. rewrite step_eq.
  destruct (ContactApp.lookup (fst (ContactApp.parse_input_body line))
                              (ContactApp.commands today written)) as [h|] eqn:E;
    [|reflexivity].
  assert (Hr : reads_only h).
  { apply lookup_in in E. simpl in E.
    repeat (destruct E as [E|E]; [injection E as Ec <-|]);
      try (symmetry in Ec; contradiction);
      [apply hello_reads_only | apply change_contact_reads_only
      | apply show_phone_reads_only | apply show_all_contacts_reads_only
      | apply show_birthday_reads_only | apply show_birthdays_reads_only
      | apply exit_reads_only | apply exit_reads_only | destruct E]. }
  specialize (Hr (snd (ContactApp.parse_input_body line)) self).
  destruct (h (snd (ContactApp.parse_input_body line)) self) as [[[r|]|e] s'];
    exact Hr.
Qed.

Lemma only_add_changes_book_witness :
  ContactApp.book
    (snd (ContactApp.step (Datetime.mkdate 2024 6 3) (Ok tt)
            "change Ann 0987654321" (ContactApp.mk [("Ann", ann)] [])))
  = [("Ann", ann)].
Proof.
  apply (only_add_changes_book (Datetime.mkdate 2024 6 3) (Ok tt)
           "change Ann 0987654321" (ContactApp.mk [("Ann", ann)] [])).
  split; discriminate.
Defined.

(** X16: the handler of "change" never updates a contact: it either
    prints "Contact not found." or raises and leaves the application as it
    was; when the contact is there with a phone and the new phone has ten
    characters, the exception is the [TypeError] of the call in
    [edit_phone]. *)
Theorem change_contact_never_updates (args : list string) (self : ContactApp.t) :
  (ContactApp.change_contact args self
   = (Ok None,
      ContactApp.mk (ContactApp.book self)
                    (ContactApp.printed self ++ ["Contact not found."]))
   \/ exists e, ContactApp.change_contact args self = (Raise e, self))
  /\ forall name phone record,
       args = [name; phone] ->
       AddressBook.find name (ContactApp.book self) = Some record ->
       Record.phones record <> [] ->
       String.length phone = 10%nat ->
       ContactApp.change_contact args self
       = (Raise (TypeError "'str' object is not callable"), self).
Proof.
  split; [apply change_contact_cases|].
  intros name phone record -> Hf Hne Hl.
  destruct self as [book printed]. simpl in Hf.
  unfold ContactApp.change_contact. run_monad. rewrite Hf. simpl.
  destruct (Record.phones record) as [|first others] eqn:Ep; [contradiction|].
  simpl.
  rewrite (edit_phone_found record (Field.value first) phone Hl)
    by (rewrite Ep; left; reflexivity).
  simpl. rewrite (setitem_same name record book Hf). reflexivity.
Qed.

Lemma new_record_valid (name phone : string) :
  ten_digits phone ->
  Record.new name phone None
  = Ok (Record.mk (Field.mk name) [Field.mk phone] None).
Proof.
  intros H. apply validate_phone_ten_digits in H.
  unfold Record.new, and_then, Phone.new. rewrite H. reflexivity.
Qed.

Lemma ten_digits_len (phone : string) : ten_digits phone -> (PyStr.len phone =? 10) = true.
Proof.
  intros [H _]. change 10 with (Z.of_nat 10). apply len_eq, H.
Qed.

(** X14: the handler of "add" with a phone of ten digits adds, under a
    name that is not in the book, a new record with that one phone at the
    end of the book and prints "Contact added."; under a name that is in
    the book it appends the phone to the record there, in its place, and
    prints "Phone added.". *)
Theorem add_contact_valid (name phone : string) (self : ContactApp.t)
        (H : ten_digits phone) :
  (AddressBook.find name (ContactApp.book self) = None ->
     ContactApp.add_contact [name; phone] self
     = (Ok None,
        ContactApp.mk
          (ContactApp.book self
           ++ [(name, Record.mk (Field.mk name) [Field.mk phone] None)])%list
          (ContactApp.printed self ++ ["Contact added."])%list))
  /\ (forall r,
        AddressBook.find name (ContactApp.book self) = Some r ->
        ContactApp.add_contact [name; phone] self
        = (Ok None,
           ContactApp.mk
             (AddressBook.setitem name
                (Record.mk (Record.name r)
                           (Record.phones r ++ [Field.mk phone])%list
                           (Record.birthday r))
                (ContactApp.book self))
             (ContactApp.printed self ++ ["Phone added."])%list)).
Proof.
  unfold ContactApp.add_contact. run_monad. split.
  - intros Hf. rewrite Hf. rewrite (ten_digits_len phone H).
    rewrite (new_record_valid name phone H). simpl.
    unfold AddressBook.add_record. simpl.
    rewrite (setitem_absent name _ _ Hf). reflexivity.
  - intros r Hf. rewrite Hf.
    apply validate_phone_ten_digits in H.
    rewrite (add_phone_valid r phone H). reflexivity.
Qed.

Lemma add_contact_valid_witness :
  ContactApp.add_contact ["Bob"; "0987654321"] (ContactApp.mk [("Ann", ann)] [])
  = (Ok None,
     ContactApp.mk
       [("Ann", ann);
        ("Bob", Record.mk (Field.mk "Bob") [Field.mk "0987654321"] None)]
       ["Contact added."]).
Proof.
  apply (add_contact_valid "Bob" "0987654321" (ContactApp.mk [("Ann", ann)] [])).
  - split; [reflexivity|]. unfold chars. simpl.
    repeat (apply Forall_cons;
            [left; unfold decimal_digit; vm_compute; split; discriminate|]).
    apply Forall_nil.
  - reflexivity.
Defined.

(** X15: the handler of "add" with a phone that is not ten digits: for
    a new name it prints "Invalid phone number" when the length is not 10,
    and raises [ValueError] when the length is 10; for a name in the book
    it raises [ValueError].  The book stays as it was in each case. *)
Theorem add_contact_invalid (name phone : string) (self : ContactApp.t)
        (H : ~ ten_digits phone) :
  (AddressBook.find name (ContactApp.book self) = None ->
   String.length phone <> 10%nat ->
     ContactApp.add_contact [name; phone] self
     = (Ok None,
        ContactApp.mk (ContactApp.book self)
                      (ContactApp.printed self ++ ["Invalid phone number"])%list))
  /\ (AddressBook.find name (ContactApp.book self) = None ->
      String.length phone = 10%nat ->
        ContactApp.add_contact [name; phone] self
        = (Raise (ValueError "Invalid phone number"), self))
  /\ (AddressBook.find name (ContactApp.book self) <> None ->
        ContactApp.add_contact [name; phone] self
        = (Raise (ValueError "Invalid phone number"), self)).
Proof.
  assert (Hv : Phone.validate_phone phone = false).
  { apply not_true_is_false. intros E. apply H, validate_phone_ten_digits, E. }
  destruct self as [book printed].
  unfold ContactApp.add_contact. run_monad. split; [|split].
  - intros Hf Hl. rewrite Hf.
    destruct (PyStr.len phone =? 10) eqn:E; [|reflexivity].
    change 10 with (Z.of_nat 10) in E. apply len_eq in E. contradiction.
  - intros Hf Hl. rewrite Hf.
    change 10 with (Z.of_nat 10). apply len_eq in Hl. rewrite Hl.
    unfold Record.new, and_then, Phone.new. rewrite Hv. reflexivity.
  - intros Hf. destruct (AddressBook.find name book) as [r|] eqn:Ef;
      [|contradiction].
    rewrite (add_phone_invalid r phone Hv). simpl.
    rewrite (setitem_same name r book Ef). reflexivity.
Qed.

Lemma add_contact_invalid_witness :
  ContactApp.add_contact ["Bob"; "abcdefghij"] (ContactApp.mk [("Ann", ann)] [])
  = (Raise (ValueError "Invalid phone number"), ContactApp.mk [("Ann", ann)] []).
Proof.
  assert (H : ~ ten_digits "abcdefghij").
  { intros [_ Hd]. inversion Hd as [|c l Hc _]; subst.
    destruct Hc as [[_ Hc]|[Hc|[Hc|Hc]]]; vm_compute in Hc;
      try discriminate Hc. apply Hc. reflexivity. }
  exact (proj1 (proj2 (add_contact_invalid "Bob" "abcdefghij"
                         (ContactApp.mk [("Ann", ann)] []) H))
               eq_refl eq_refl).
Defined.

(** ** Birthdays and phones through the dispatcher *)

Section Handlers.
Import Datetime.

(** X21: after "add-birthday" with the text of a real date for a
    contact in the book, "show-birthday" for that contact prints the text
    that was given. *)
Theorem birthday_round_trip (name text : string) (r : Record.t)
        (self : ContactApp.t) (d m y : Z)
        (Hf : AddressBook.find name (ContactApp.book self) = Some r)
        (Ht : birthday_text text d m y) (Hd : fields_ok y m d = true) :
  let s1 :=
    ContactApp.mk
      (AddressBook.setitem name
         (Record.mk (Record.name r) (Record.phones r) (Some (Field.mk text)))
         (ContactApp.book self))
      (ContactApp.printed self ++ ["Birthday for " ++ name ++ " added."]) in
  ContactApp.add_birthday [name; text] self = (Ok None, s1)
  /\ ContactApp.show_birthday [name] s1
     = (Ok None,
        ContactApp.mk (ContactApp.book s1)
          (ContactApp.printed s1 ++ ["Birthday for " ++ name ++ ": " ++ text])).
Proof.
  split.
  - unfold ContactApp.add_birthday. run_monad. rewrite Hf.
    unfold Record.edit_birthday, bind, lift, modify.
    rewrite (birthday_new_ok text d m y Ht Hd). reflexivity.
  - unfold ContactApp.show_birthday. run_monad.
    rewrite find_setitem, String.eqb_refl. reflexivity.
Qed.

Lemma birthday_round_trip_witness :
  ContactApp.show_birthday ["Ann"]
    (ContactApp.mk [("Ann", june_ann)] ["Birthday for Ann added."])
  = (Ok None,
     ContactApp.mk [("Ann", june_ann)]
       ["Birthday for Ann added."; "Birthday for Ann: 08.06.1990"]).
Proof.
  refine (proj2 (birthday_round_trip "Ann" "08.06.1990" ann
                   (ContactApp.mk [("Ann", ann)] []) 8 6 1990 eq_refl _ eq_refl)).
  exists "08", "06", "1990". split; [reflexivity|].
  split; [left; exists "0"%char, "8"%char, 0, 8; auto|].
  split; [left; exists "0"%char, "6"%char, 0, 6; auto|].
  exists "1"%char, "9"%char, "9"%char, "0"%char, 1, 9, 9, 0. auto 10.
Defined.

End Handlers.

(** X22: on a book that is in order the handler of "phone" does not
    raise: it prints the first phone of the contact, or that the contact
    is not found. *)
Theorem show_phone_on_kept_book (name : string) (self : ContactApp.t)
        (H : book_ok (ContactApp.book self)) :
  (AddressBook.find name (ContactApp.book self) = None ->
     ContactApp.show_phone [name] self
     = (Ok None,
        ContactApp.mk (ContactApp.book self)
          (ContactApp.printed self ++ ["Contact " ++ name ++ " not found."])))
  /\ (forall r,
        AddressBook.find name (ContactApp.book self) = Some r ->
        exists first others,
          Record.phones r = first :: others
          /\ ContactApp.show_phone [name] self
             = (Ok None,
                ContactApp.mk (ContactApp.book self)
                  (ContactApp.printed self
                   ++ ["Phone number for " ++ name ++ ": " ++ Field.value first]))).
Proof.
  unfold ContactApp.show_phone. run_monad. split.
  - intros Hf. rewrite Hf. reflexivity.
  - intros r Hf. rewrite Hf.
    destruct H as [_ Hall]. rewrite Forall_forall in Hall.
    destruct (Hall _ (find_In _ _ _ Hf)) as [_ [Hne _]]. simpl in Hne.
    destruct (Record.phones r) as [|first others]; [contradiction|].
    exists first, others. split; reflexivity.
Qed.

Lemma show_phone_on_kept_book_witness :
  book_ok [("Ann", ann)]
  /\ ContactApp.show_phone ["Ann"] (ContactApp.mk [("Ann", ann)] [])
     = (Ok None,
        ContactApp.mk [("Ann", ann)] ["Phone number for Ann: 1234567890"])
  /\ ContactApp.show_phone ["Bob"] (ContactApp.mk [("Ann", ann)] [])
     = (Ok None, ContactApp.mk [("Ann", ann)] ["Contact Bob not found."]).
Proof.
  assert (H : book_ok [("Ann", ann)]).
  { split.
    - constructor; [intros []|constructor].
    - constructor; [|constructor]. split; [reflexivity|].
      split; [discriminate|]. constructor; [|constructor].
      apply validate_phone_ten_digits. reflexivity. }
  split; [exact H|]. split.
  - destruct (proj2 (show_phone_on_kept_book
                       "Ann" (ContactApp.mk [("Ann", ann)] []) H)
                    ann eq_refl) as (first & others & Ep & E).
    injection Ep as <- _. exact E.
  - exact (proj1 (show_phone_on_kept_book
                    "Bob" (ContactApp.mk [("Ann", ann)] []) H) eq_refl).
Defined.


Lemma chars_append (s : string) (c : ascii) :
  chars (s ++ String c "") = (chars s ++ [c])%list.
Proof.
  unfold chars. induction s as [|a r IH]; simpl; [reflexivity|].
  rewrite IH. reflexivity.
Qed.

Lemma truthy_nonempty (s : string) : PyStr.truthy s = true <-> s <> "".
Proof.
  destruct s; simpl; split; try discriminate; try reflexivity.
  intros H. contradiction.
Qed.

Lemma split_aux_words (cur s : string) :
  no_space cur -> Forall word (PyStr.split_aux cur s).
Proof.
  revert cur. induction s as [|c r IH]; intros cur Hcur; simpl.
  - destruct (PyStr.truthy cur) eqn:E; [|constructor].
    constructor; [|constructor]. split; [apply truthy_nonempty, E | exact Hcur].
  - destruct (PyStr.isspace_char c) eqn:Ec.
    + destruct (PyStr.truthy cur) eqn:E.
      * constructor; [split; [apply truthy_nonempty, E | exact Hcur]|].
        apply IH. constructor.
      * apply IH. constructor.
    + apply IH. unfold no_space. rewrite chars_append.
      apply Forall_app. split; [exact Hcur|]. constructor; [exact Ec | constructor].
Qed.

Lemma split_space_once_no_space (s : string) :
  Forall (fun c => c <> " "%char) (chars s) ->
  PyStr.split_space_once s = (s, None).
Proof.
  unfold chars. induction s as [|c r IH]; simpl; [reflexivity|].
  intros H. inversion H as [|x l Hc Hr]; subst.
  destruct (Ascii.eqb_spec c " ") as [E|_]; [contradiction|].
  rewrite (IH Hr). reflexivity.
Qed.

(** X23: the arguments [parse_input] returns are words: none is empty
    and none has white space in it; a line without a space character has
    no arguments, and its command is the line, stripped and in lower
    case. *)
Theorem parse_input_arguments (line : string) :
  Forall word (snd (ContactApp.parse_input_body line))
  /\ (Forall (fun c => c <> " "%char) (chars line) ->
      ContactApp.parse_input_body line
      = (PyStr.lower (PyStr.strip line), [])).
Proof.
  unfold ContactApp.parse_input_body. split.
  - destruct (PyStr.split_space_once line) as [cmd [rest|]]; simpl.
    + apply split_aux_words. constructor.
    + constructor.
  - intros H. rewrite (split_space_once_no_space line H). reflexivity.
Qed.

(** X13: the function [add_contact] of the module never raises: it
    returns "Phone added." with the phone appended to the record there,
    or "Contact added." with a new record at the end of the book, both
    only for a phone of ten digits, or the message "Give me name and phone
    please." with the book as it was. *)
Theorem add_contact_caught (args : list string) (book : AddressBook.t) :
  add_contact args book = (Ok (Message "Give me name and phone please."), book)
  \/ (exists name phone r,
        args = [name; phone]
        /\ AddressBook.find name book = Some r /\ ten_digits phone
        /\ add_contact args book
           = (Ok (Returned "Phone added."),
              AddressBook.setitem name
                (Record.mk (Record.name r)
                           (Record.phones r ++ [Field.mk phone])%list
                           (Record.birthday r))
                book))
  \/ (exists name phone,
        args = [name; phone]
        /\ AddressBook.find name book = None /\ ten_digits phone
        /\ add_contact args book
           = (Ok (Returned "Contact added."),
              (book ++ [(name, Record.mk (Field.mk name) [Field.mk phone] None)])%list)).
Proof.
  unfold add_contact, input_error. run_monad.
  destruct args as [|name [|phone [|x rest]]]; simpl; try (left; reflexivity).
  destruct (AddressBook.find name book) as [r|] eqn:Ef.
  - destruct (Phone.validate_phone phone) eqn:Ev.
    + right. left. exists name, phone, r.
      rewrite (add_phone_valid r phone Ev). simpl.
      split; [reflexivity|]. split; [exact Ef|].
      split; [apply validate_phone_ten_digits, Ev | reflexivity].
    + left. rewrite (add_phone_invalid r phone Ev). simpl.
      rewrite (setitem_same name r book Ef). reflexivity.
  - destruct (PyStr.len phone =? 10) eqn:El; simpl; [|left; reflexivity].
    destruct (Phone.validate_phone phone) eqn:Ev.
    + right. right. exists name, phone.
      assert (Ht : ten_digits phone) by (apply validate_phone_ten_digits, Ev).
      rewrite (new_record_valid name phone Ht). simpl.
      unfold AddressBook.add_record. simpl.
      rewrite (setitem_absent name _ _ Ef). auto.
    + left. unfold Record.new, and_then, Phone.new. rewrite Ev. reflexivity.
Qed.

(** X24: the function [change_contact] of the module never updates a
    contact and never changes the book: it returns "Contact not found." or
    one of two messages of the decorator, or raises [TypeError], which the
    decorator does not catch; it raises whenever the contact is there with
    a phone and the new phone has ten characters. *)
Theorem module_change_contact_cases (args : list string) (book : AddressBook.t) :
  (change_contact args book = (Ok (Returned "Contact not found."), book)
   \/ change_contact args book
      = (Ok (Message "Give me name and phone please."), book)
   \/ change_contact args book
      = (Ok (Message "Please provide a name to lookup the phone number."), book)
   \/ change_contact args book
      = (Raise (TypeError "'str' object is not callable"), book))
  /\ forall name phone record,
       args = [name; phone] ->
       AddressBook.find name book = Some record ->
       Record.phones record <> [] ->
       String.length phone = 10%nat ->
       change_contact args book
       = (Raise (TypeError "'str' object is not callable"), book).
Proof.
  unfold change_contact, input_error. run_monad. split.
  - destruct args as [|name [|phone [|x rest]]]; simpl; try (right; left; reflexivity).
    destruct (AddressBook.find name book) as [r|] eqn:Ef; simpl;
      [|left; reflexivity].
    destruct (Record.phones r) as [|first others] eqn:Ep; simpl;
      [right; right; left; reflexivity|].
    destruct (Nat.eq_dec (String.length phone) 10) as [Hl|Hl].
    + right. right. right.
      rewrite (edit_phone_found r (Field.value first) phone Hl)
        by (rewrite Ep; left; reflexivity).
      simpl. rewrite (setitem_same name r book Ef). reflexivity.
    + right. left.
      rewrite (edit_phone_bad_length r (Field.value first) phone Hl).
      simpl. rewrite (setitem_same name r book Ef). reflexivity.
  - intros name phone record -> Hf Hne Hl. simpl. rewrite Hf. simpl.
    destruct (Record.phones record) as [|first others] eqn:Ep; [contradiction|].
    simpl.
    rewrite (edit_phone_found record (Field.value first) phone Hl)
      by (rewrite Ep; left; reflexivity).
    simpl. rewrite (setitem_same name record book Hf). reflexivity.
Qed.

(** ** The decorated functions of the module *)

Section ModuleFunctions.
Import Datetime.

(** X25: the function [add_birthday] of the module reports a contact
    that is not there; for a contact that is there it sets the birthday
    when the text is one that the expression of ["%d.%m.%Y"] matches as a
    whole and that denotes a real date, and for any other text it returns
    the message "Give me name and phone please." with the book as it was.
    The texts are those of this development, over the code points 0..255,
    where the decimal digits that [\d] matches are the characters "0" to
    "9". *)
Theorem module_add_birthday_cases (name text : string) (book : AddressBook.t) :
  (AddressBook.find name book = None ->
     add_birthday [name; text] book
     = (Ok (Returned ("Contact " ++ name ++ " not found.")), book))
  /\ (forall r d m y,
        AddressBook.find name book = Some r ->
        strptime_text text d m y -> fields_ok y m d = true ->
        add_birthday [name; text] book
        = (Ok (Returned ("Birthday for " ++ name ++ " added.")),
           AddressBook.setitem name
             (Record.mk (Record.name r) (Record.phones r) (Some (Field.mk text)))
             book))
  /\ (forall r,
        AddressBook.find name book = Some r ->
        (forall d m y, strptime_text text d m y -> fields_ok y m d = false) ->
        add_birthday [name; text] book
        = (Ok (Message "Give me name and phone please."), book)).
Proof.
  unfold add_birthday, input_error. run_monad. split; [|split].
  - intros Hf. rewrite Hf. reflexivity.
  - intros r d m y Hf Ht Hd. rewrite Hf.
    unfold Record.edit_birthday, bind, lift, modify.
    rewrite (birthday_new_reads text d m y Ht Hd). reflexivity.
  - intros r Hf Hall. rewrite Hf.
    unfold Record.edit_birthday, bind, lift, modify.
    rewrite (birthday_new_other text Hall). simpl.
    rewrite (setitem_same name r book Hf). reflexivity.
Qed.

End ModuleFunctions.

(** The function [show_phone] of the module: the decorator turns the
    [IndexError] of a record without phones into a message. *)
Lemma module_show_phone_cases (name : string) (book : AddressBook.t) :
  snd (show_phone name book) = book
  /\ (AddressBook.find name book = None ->
      fst (show_phone name book)
      = Ok (Returned ("Contact " ++ name ++ " not found.")))
  /\ (forall r,
        AddressBook.find name book = Some r ->
        match Record.phones r with
        | first :: _ =>
            fst (show_phone name book)
            = Ok (Returned ("Phone number for " ++ name ++ ": " ++ Field.value first))
        | [] =>
            fst (show_phone name book)
            = Ok (Message "Please provide a name to lookup the phone number.")
        end).
Proof.
  unfold show_phone, input_error. run_monad. split; [|split].
  - destruct (AddressBook.find name book) as [r|]; [|reflexivity].
    destruct (Record.phones r); reflexivity.
  - intros Hf. rewrite Hf. reflexivity.
  - intros r Hf. rewrite Hf. destruct (Record.phones r); reflexivity.
Qed.

(** ** The schedule on the book of the scenario *)

Section ScheduleWitnesses.

Import Datetime.

Lemma june_text : birthday_text "08.06.1990" 8 6 1990.
Proof.
  exists "08", "06", "1990". split; [reflexivity|].
  split; [left; exists "0"%char, "8"%char, 0, 8; auto|].
  split; [left; exists "0"%char, "6"%char, 0, 6; auto|].
  exists "1"%char, "9"%char, "9"%char, "0"%char, 1, 9, 9, 0. auto 10.
Qed.

Lemma get_upcoming_birthdays_returns_witness :
  exists l,
    AddressBook.get_upcoming_birthdays [("Ann", june_ann)] 7 (mkdate 2024 6 3)
    = Ok l.
Proof.
  apply (get_upcoming_birthdays_returns [("Ann", june_ann)] 7 (mkdate 2024 6 3)).
  - constructor; [|constructor]. intros b Hb. injection Hb as <-.
    exists 8, 6, 1990. split; [exact june_text|].
    split; [reflexivity | intros [H _]; discriminate H].
  - reflexivity.
  - simpl. lia.
Defined.

End ScheduleWitnesses.
